(** * Damage-estimate web application: pricing and request handling

    A shallow embedding of [app.py]: the part-name lookup
    [get_part_name_from_id], the price calculation [calculate_prices], the
    start-up loader [load_data] and the request handler [predict_damage],
    followed by the properties the specification states about them.

    Python values are modelled by inductive types, exceptions by an explicit
    [result] type, and the module's globals, the file system, standard output
    and the objects passed by reference by a [world] record that every
    stateful function threads through. *)

From Stdlib Require Import ZArith String Ascii SpecFloat.
From stdpp Require Import gmap strings list sorting.

Set Warnings "-register-all".
Local Open Scope string_scope.
Local Open Scope list_scope.
Local Open Scope Z_scope.

(** ** Exceptions and results *)

(** The exception classes the modelled code raises or catches, all of them
    subclasses of Python's [Exception].  [JSONDecodeError] and
    [UnicodeDecodeError] are subclasses of [ValueError], and
    [FileNotFoundError] and [SameFileError] are subclasses of [OSError]; no
    handler of the program names a parent class of another class listed
    here, so the hierarchy is left flat.  [RequestEntityTooLarge] is the
    web framework's exception for a request body over the size limit.
    [OtherError] stands for any other exception an external library
    raises. *)
Inductive exn :=
  | IndexError
  | TypeError
  | ValueError
  | OverflowError
  | KeyError
  | AttributeError
  | FileNotFoundError
  | JSONDecodeError
  | UnicodeDecodeError
  | SameFileError
  | OSError
  | RequestEntityTooLarge
  | OtherError (name : string).

(** The outcome of evaluating a Python expression: a value, or a raised
    exception. *)
Inductive result (A : Type) :=
  | Ok (a : A)
  | Raise (e : exn).
Arguments Ok {A} a.
Arguments Raise {A} e.

Global Instance result_ret : MRet result := @Ok.
Global Instance result_bind : MBind result := λ A B f r,
  match r with
  | Ok a => f a
  | Raise e => Raise e
  end.

(** [try: body except ...: handler]: the handler decides, per exception,
    whether it catches ([Some]) or lets the exception through ([None]). *)
Definition catch {A} (body : result A) (handler : exn → option (result A)) : result A :=
  match body with
  | Ok a => Ok a
  | Raise e => match handler e with Some r => r | None => Raise e end
  end.

(** ** Python values used as class identifiers *)

(** [None], [bool], [int], [float] (an IEEE double, by its sign, mantissa and
    exponent) and [str] (ASCII text). *)
Inductive value :=
  | VNone
  | VBool (b : bool)
  | VInt (z : Z)
  | VFloat (f : spec_float)
  | VStr (s : string).

(** *** The builtin [int()] *)

(** [int(x)] for a float: truncation toward zero; [nan] raises [ValueError]
    and an infinity raises [OverflowError]. *)
Definition int_of_float (f : spec_float) : result Z :=
  match f with
  | S754_zero _ => Ok 0
  | S754_infinity _ => Raise OverflowError
  | S754_nan => Raise ValueError
  | S754_finite s m e =>
      let magnitude := Z.shiftl (Z.pos m) e in
      Ok (if s then - magnitude else magnitude)
  end.

Definition digit_of_ascii (c : ascii) : option Z := Z.of_nat <$> Ascii.is_nat c.

(** Decimal digits with single underscores between digits, as the integer
    literal grammar of [int(str)] has them.  [after_digit] tells whether the
    previous character was a digit. *)
Fixpoint parse_digits (s : string) (acc : Z) (after_digit : bool) : option Z :=
  match s with
  | EmptyString => if after_digit then Some acc else None
  | String c s' =>
      match digit_of_ascii c with
      | Some d => parse_digits s' (10 * acc + d) true
      | None =>
          if Ascii.eqb c "_" && after_digit then parse_digits s' acc false else None
      end
  end.

Fixpoint lstrip (s : string) : string :=
  match s with
  | String c s' => if Ascii.is_space c then lstrip s' else s
  | EmptyString => EmptyString
  end.

Definition strip (s : string) : string :=
  String.rev (lstrip (String.rev (lstrip s))).

(** The interpreter's default limit on the digits of a string that [int]
    converts ([sys.int_max_str_digits]). *)
Definition int_max_str_digits : nat := 4300.

Fixpoint count_digits (s : string) : nat :=
  match s with
  | EmptyString => 0
  | String c s' =>
      (match digit_of_ascii c with Some _ => 1 | None => 0 end + count_digits s')%nat
  end.

(** [s.isascii()] *)
Fixpoint isascii (s : string) : bool :=
  match s with
  | EmptyString => true
  | String c s' => (nat_of_ascii c <? 128)%nat && isascii s'
  end.

(** The digits of a literal: more digit characters than the limit are
    refused (underscores do not count), and so is what is no digit string. *)
Definition parse_literal (s : string) : option Z :=
  if (int_max_str_digits <? count_digits s)%nat then None else parse_digits s 0 false.

(** [int(s)] for a string of ASCII characters, base 10: surrounding white
    space, an optional sign, digits.  [None] is Python's [ValueError]. *)
Definition int_of_str (s : string) : option Z :=
  match strip s with
  | String "-" r => Z.opp <$> parse_literal r
  | String "+" r => parse_literal r
  | r => parse_literal r
  end.

Definition py_int (x : value) : result Z :=
  match x with
  | VNone => Raise TypeError
  | VBool b => Ok (if b then 1 else 0)
  | VInt z => Ok z
  | VFloat f => int_of_float f
  | VStr s => match int_of_str s with Some z => Ok z | None => Raise ValueError end
  end.

(** *** List indexing *)

(** [l[i]]: a negative index counts from the end; an index outside
    [-len(l) .. len(l)-1] raises [IndexError]. *)
Definition list_getitem {A} (l : list A) (i : Z) : result A :=
  let n := Z.of_nat (length l) in
  let j := if i <? 0 then i + n else i in
  if (0 <=? j) && (j <? n) then
    match l !! Z.to_nat j with
    | Some x => Ok x
    | None => Raise IndexError
    end
  else Raise IndexError.

(** ** Part names *)

Definition class_names : list string :=
  ["Bonnet"; "Bumper"; "Dickey"; "Door"; "Fender"; "Light"; "Windshield"].

(** [get_part_name_from_id]: [Ok (Some name)] when the identifier resolves,
    [Ok None] for the function's [return None], [Raise e] when an exception
    leaves the function. *)
Definition get_part_name_from_id (class_id : value) : result (option string) :=
  catch
    (i ← py_int class_id;
     name ← list_getitem class_names i;
     Ok (Some name))
    (λ e, match e with
          | IndexError | TypeError => Some (Ok None)
          | _ => None
          end).

(** ** JSON values and the operations the program applies to them *)

(** What [json.load] returns: [None], [bool], [int], [float], [str], [list]
    and [dict] (its keys are strings).  A dict is a finite map: the program
    looks keys up and lists them, and sorts the list it takes. *)
Inductive json :=
  | JNull
  | JBool (b : bool)
  | JInt (z : Z)
  | JFloat (f : spec_float)
  | JStr (s : string)
  | JArr (l : list json)
  | JObj (d : gmap string json).

(** [k in s] for two strings: [k] occurs in [s]. *)
Fixpoint is_substring (k s : string) : bool :=
  String.prefix k s ||
  match s with
  | String _ s' => is_substring k s'
  | EmptyString => false
  end.

Definition is_str (k : string) (j : json) : bool :=
  match j with
  | JStr s => String.eqb k s
  | _ => false
  end.

(** [key in container] for a string key. *)
Definition py_contains (key : string) (container : json) : result bool :=
  match container with
  | JObj d => Ok (bool_decide (is_Some (d !! key)))
  | JArr l => Ok (existsb (is_str key) l)
  | JStr s => Ok (is_substring key s)
  | JNull | JBool _ | JInt _ | JFloat _ => Raise TypeError
  end.

(** [container[key]] for a string key. *)
Definition py_getitem (container : json) (key : string) : result json :=
  match container with
  | JObj d => match d !! key with Some v => Ok v | None => Raise KeyError end
  | _ => Raise TypeError
  end.

(** [float(n)] for an integer: the nearest double, ties to even;
    [OverflowError] when the integer is beyond the doubles. *)
Definition float_of_int (n : Z) : result spec_float :=
  match binary_normalize 53 1024 n 0 false with
  | S754_infinity _ => Raise OverflowError
  | f => Ok f
  end.

Definition str_repeat (s : string) (n : Z) : string :=
  Nat.iter (Z.to_nat n) (String.app s) "".

Definition list_repeat {A} (l : list A) (n : Z) : list A :=
  Nat.iter (Z.to_nat n) (app l) [].

(** [price * count] for an integer [count]. *)
Definition py_mul (price : json) (count : Z) : result json :=
  match price with
  | JInt p => Ok (JInt (p * count))
  | JBool b => Ok (JInt ((if b then 1 else 0) * count))
  | JFloat f => g ← float_of_int count; Ok (JFloat (SFmul 53 1024 f g))
  | JStr s => Ok (JStr (str_repeat s count))
  | JArr l => Ok (JArr (list_repeat l count))
  | JNull | JObj _ => Raise TypeError
  end.

(** ** The program state *)

(** One line of a price breakdown: [{'count': .., 'price': .., 'total': ..}]. *)
Record entry := Entry { count : Z; price : json; total : json }.

(** A breakdown is a Python dict from part names to entries, kept in
    insertion order. *)
Definition breakdown := list (string * entry).

(** [d[k] = v]: a key already present keeps its place and takes the new
    value; a new key goes last. *)
Fixpoint dict_set {V} (k : string) (v : V) (d : list (string * V)) : list (string * V) :=
  match d with
  | [] => [(k, v)]
  | (k', v') :: d' =>
      if String.eqb k k' then (k, v) :: d' else (k', v') :: dict_set k v d'
  end.

(** A class-count mapping ([Counter]): class identifiers with their counts,
    in iteration order. *)
Definition counter := list (value * Z).

(** The globals of the module, standard output, the files on disk (path to
    content), and the class-count objects, which Python passes by
    reference. *)
Record world := World {
  CAR_PRICES : json;
  AVAILABLE_BRANDS : list string;
  MODEL : bool;
  stdout : list string;
  fs : gmap string string;
  heap : gmap nat counter;
}.

Definition set_CAR_PRICES (j : json) (σ : world) : world :=
  World j (AVAILABLE_BRANDS σ) (MODEL σ) (stdout σ) (fs σ) (heap σ).
Definition set_AVAILABLE_BRANDS (bs : list string) (σ : world) : world :=
  World (CAR_PRICES σ) bs (MODEL σ) (stdout σ) (fs σ) (heap σ).
Definition set_stdout (out : list string) (σ : world) : world :=
  World (CAR_PRICES σ) (AVAILABLE_BRANDS σ) (MODEL σ) out (fs σ) (heap σ).
Definition set_fs (files : gmap string string) (σ : world) : world :=
  World (CAR_PRICES σ) (AVAILABLE_BRANDS σ) (MODEL σ) (stdout σ) files (heap σ).
Definition set_heap (h : gmap nat counter) (σ : world) : world :=
  World (CAR_PRICES σ) (AVAILABLE_BRANDS σ) (MODEL σ) (stdout σ) (fs σ) h.

(** Stateful code: a function from the state before to an outcome and the
    state after.  An exception keeps the state reached when it was raised. *)
Definition M (A : Type) : Type := world → result A * world.

Global Instance M_ret : MRet M := λ A a σ, (Ok a, σ).
Global Instance M_bind : MBind M := λ A B f m σ,
  match m σ with
  | (Ok a, σ') => f a σ'
  | (Raise e, σ') => (Raise e, σ')
  end.

Definition lift {A} (r : result A) : M A := λ σ, (r, σ).

Definition read {A} (field : world → A) : M A := λ σ, (Ok (field σ), σ).

Definition write (update : world → world) : M unit := λ σ, (Ok tt, update σ).

(** [try: body except ...: handler] for stateful code.  The handler runs in
    the state the body left. *)
Definition try_except {A} (body : M A) (handler : exn → option (M A)) : M A := λ σ,
  match body σ with
  | (Ok a, σ') => (Ok a, σ')
  | (Raise e, σ') =>
      match handler e with
      | Some h => h σ'
      | None => (Raise e, σ')
      end
  end.

Definition print (line : string) : M unit :=
  write (λ σ, set_stdout (stdout σ ++ [line]) σ).

(** [class_counts.items()]: the items of the object a reference points to. *)
Definition dict_items (l : nat) : M counter :=
  read (λ σ, default [] (heap σ !! l)).

(** A [for] loop that carries the local [acc] through the iterations. *)
Fixpoint for_each {A B} (items : list A) (acc : B) (body : B → A → M B) : M B :=
  match items with
  | [] => mret acc
  | x :: rest => acc' ← body acc x; for_each rest acc' body
  end.

(** ** [calculate_prices] *)

(** Truth value of [part_name]: [None] and the empty string are false. *)
Definition truthy_name (part_name : option string) : option string :=
  match part_name with
  | Some "" => None
  | other => other
  end.

(** The body of the loop over [class_counts.items()]. *)
Definition price_step (car_model : string) (model_prices : json)
    (prices : breakdown) (item : value * Z) : M breakdown :=
  let '(class_id, count) := item in
  part_name ← lift (get_part_name_from_id class_id);
  match truthy_name part_name with
  | Some name =>
      priced ← lift (py_contains name model_prices);
      if priced : bool then
        price_per_part ← lift (py_getitem model_prices name);
        total_price ← lift (py_mul price_per_part count);
        mret (dict_set name (Entry count price_per_part total_price) prices)
      else
        print ("WARNING: Part '" +:+ name +:+ "' detected but no price found for "
               +:+ car_model +:+ ".");;
        mret prices
  | None => mret prices
  end.

(** [car_brand not in CAR_PRICES or car_model not in CAR_PRICES[car_brand]] *)
Definition price_data_missing (table : json) (car_brand car_model : string) : result bool :=
  has_brand ← py_contains car_brand table;
  if negb has_brand then Ok true
  else
    brand_entry ← py_getitem table car_brand;
    has_model ← py_contains car_model brand_entry;
    Ok (negb has_model).

Definition calculate_prices (car_brand car_model : string) (class_counts : nat) : M breakdown :=
  let prices : breakdown := [] in
  table ← read CAR_PRICES;
  missing ← lift (price_data_missing table car_brand car_model);
  if missing : bool then
    print ("WARNING: Price data not found for " +:+ car_brand +:+ " - " +:+ car_model
           +:+ ". Cannot calculate prices.");;
    mret []
  else
    model_prices ← lift (brand_entry ← py_getitem table car_brand;
                         py_getitem brand_entry car_model);
    items ← dict_items class_counts;
    for_each items prices (price_step car_model model_prices).

(** ** External collaborators *)

(** What one detection result carries: the class of each detected box, as
    [box.cls.item()] gives it (a float), and the annotated image
    [result.save] writes. *)
Record Results := { boxes : list spec_float; plot : string }.

(** The library calls the program makes, whose code is not the program's:
    - [json_loads]: what [json.load] does with a file of these bytes: it
      returns the parsed value, or raises [json.JSONDecodeError] when the
      text is no JSON, or [UnicodeDecodeError] when the bytes are no text in
      the encoding the file is opened with;
    - [secure_filename]: werkzeug's file name sanitizer;
    - [str_of_exn]: the text [str(e)] of an exception;
    - [detect]: the detection model applied to the bytes of an image; it
      returns its results or raises;
    - [write_fault]: whether the operating system lets a file be written at
      this path with these bytes: [None] when it does, or the exception of
      the refusal (an [OSError]: a name too long, no room left) with what
      the path holds of the bytes by then, if anything was written. *)
Class External := {
  json_loads : string → result json;
  secure_filename : string → string;
  str_of_exn : exn → string;
  detect : string → result (list Results);
  write_fault : string → string → option (exn * option string);
}.

(** ** Configuration and start-up *)

Definition PRICE_JSON_PATH : string := "car_parts_prices.json".
Definition UPLOAD_FOLDER : string := "static/uploads".
Definition MAX_CONTENT_LENGTH : Z := 16 * 1024 * 1024.

(** The globals as the module first assigns them, over the files on disk. *)
Definition initial_world (files : gmap string string) : world :=
  World (JObj ∅) [] false [] files ∅.

(** [open(path, 'r')] and reading the file. *)
Definition open_read (path : string) : M string := λ σ,
  match fs σ !! path with
  | Some content => (Ok content, σ)
  | None => (Raise FileNotFoundError, σ)
  end.

(** [json.load(f)] on the open file. *)
Definition json_load `{External} (content : string) : result json :=
  json_loads content.

(** [d.keys()]: only a dict has the method. *)
Definition dict_keys (j : json) : result (list string) :=
  match j with
  | JObj d => Ok (elements (dom d))
  | _ => Raise AttributeError
  end.

(** [sorted] on a list of strings. *)
Definition sorted (l : list string) : list string := merge_sort String.le l.

Definition price_file_not_found : string :=
  "❌ ERROR: Price file not found at '" +:+ PRICE_JSON_PATH +:+ "'. Pricing will fail.".

Definition price_file_malformed : string :=
  "❌ ERROR: Could not parse JSON data in '" +:+ PRICE_JSON_PATH +:+ "'.".

Definition load_data `{External} : M unit :=
  try_except
    (f ← open_read PRICE_JSON_PATH;
     data ← lift (json_load f);
     write (set_CAR_PRICES data);;
     table ← read CAR_PRICES;
     keys ← lift (dict_keys table);
     write (set_AVAILABLE_BRANDS (sorted keys));;
     print ("✓ Pricing data loaded successfully from: " +:+ PRICE_JSON_PATH))
    (λ e, match e with
          | FileNotFoundError => Some (print price_file_not_found)
          | JSONDecodeError => Some (print price_file_malformed)
          | _ => None
          end).

(** *** Loading the model *)

Definition MODEL_PATH : string :=
  "C:\Users\rayal\OneDrive\Desktop\accident-damage-detection\models\model weights\best.pt".

Definition set_MODEL (loaded : bool) (σ : world) : world :=
  World (CAR_PRICES σ) (AVAILABLE_BRANDS σ) loaded (stdout σ) (fs σ) (heap σ).

(** The module's [try: MODEL = YOLO(MODEL_PATH) ... except Exception as e:
    ... MODEL = YOLO('yolov8n.pt')].  [YOLO] is the constructor of the
    detection library: given a weights path it returns a model or raises.
    The global [MODEL] is true once it holds a model. *)
Definition load_model `{External} (YOLO : string → result unit) : M unit :=
  try_except
    (lift (YOLO MODEL_PATH);;
     write (set_MODEL true);;
     print ("✓ Model loaded successfully from: " +:+ MODEL_PATH))
    (λ e, Some (
       print ("❌ ERROR: Could not load YOLO model from " +:+ MODEL_PATH
              +:+ ". Using 'yolov8n.pt' as fallback. Error: " +:+ str_of_exn e);;
       lift (YOLO "yolov8n.pt");;
       write (set_MODEL true))).

(** What importing the module runs, after the globals are first assigned:
    [load_data()], then the loading of the model. *)
Definition module_init `{External} (YOLO : string → result unit) : M unit :=
  load_data;;
  load_model YOLO.

(** ** The request handler *)

(** An uploaded file: the name the client gave and the bytes sent. *)
Record FileStorage := { filename : string; stream : string }.

Inductive http_method := GET | POST.

(** A request: [request.method], the length of its body, what the
    framework's form parser makes of a body within the limit (the file part
    named [image] if there is one, or the exception with which the parser
    refuses the body: too many parts, for one), and
    [request.form.get('car_brand')] and [request.form.get('car_model')]. *)
Record request := {
  method : http_method;
  content_length : Z;
  parsed_image : result (option FileStorage);
  form_car_brand : option string;
  form_car_model : option string;
}.

(** [request.files.get('image')]: the first access to the body parses it,
    and the framework refuses a body longer than [MAX_CONTENT_LENGTH] by
    raising [RequestEntityTooLarge]. *)
Definition files_image (req : request) : result (option FileStorage) :=
  if MAX_CONTENT_LENGTH <? content_length req then Raise RequestEntityTooLarge
  else parsed_image req.

(** The context [predict.html] is rendered with. *)
Record predict_ctx := {
  brands : list string;
  prices : json;
  error : option string;
}.

(** The context [estimate.html] is rendered with. *)
Record estimate_ctx := {
  original_image : string;
  detected_image : string;
  part_prices : breakdown;
  car_info : string * string;
}.

(** What a view returns: a rendered template, or a redirect. *)
Inductive response :=
  | RenderPredict (c : predict_ctx)
  | RenderEstimate (c : estimate_ctx)
  | Redirect (url : string).

Definition status_code (r : response) : Z :=
  match r with
  | RenderPredict _ | RenderEstimate _ => 200
  | Redirect _ => 302
  end.

(** *** Strings and paths *)

Definition ascii_lower (c : ascii) : ascii :=
  let n := nat_of_ascii c in
  if ((65 <=? n) && (n <=? 90))%nat then ascii_of_nat (n + 32) else c.

Fixpoint lower (s : string) : string :=
  match s with
  | EmptyString => EmptyString
  | String c s' => String (ascii_lower c) (lower s')
  end.

Definition endswith (s suffix : string) : bool :=
  String.prefix (String.rev suffix) (String.rev s).

(** [filename.lower().endswith(('.png', '.jpg', '.jpeg'))] *)
Definition allowed_file (filename : string) : bool :=
  existsb (endswith (lower filename)) [".png"; ".jpg"; ".jpeg"].

(** [os.path.join] of a folder and a relative file name. *)
Definition os_path_join (folder name : string) : string := folder +:+ "/" +:+ name.

(** [url_for('static', filename=...)] *)
Definition url_for_static (filename : string) : string := "/static/" +:+ filename.

(** The file a URL of the static route is served from. *)
Definition serve_static (url : string) (σ : world) : option string :=
  match url with
  | String "/" path => fs σ !! path
  | _ => None
  end.

(** *** Files and detection *)

(** Writing a file: the path holds the bytes afterwards, unless the
    operating system refuses. *)
Definition write_file `{External} (path content : string) : M unit := λ σ,
  match write_fault path content with
  | None => (Ok tt, set_fs (<[path := content]> (fs σ)) σ)
  | Some (e, Some written) => (Raise e, set_fs (<[path := written]> (fs σ)) σ)
  | Some (e, None) => (Raise e, σ)
  end.

(** [file.save(path)] *)
Definition file_save `{External} (f : FileStorage) (path : string) : M unit :=
  write_file path (stream f).

(** [MODEL(path)]: the model reads the image and returns its results. *)
Definition MODEL_call `{External} (path : string) : M (list Results) :=
  image ← open_read path;
  lift (detect image).

(** [result.save(filename=path)] *)
Definition result_save `{External} (r : Results) (path : string) : M unit :=
  write_file path (plot r).

(** [shutil.copyfile(src, dst)] *)
Definition copyfile `{External} (src dst : string) : M unit := λ σ,
  match fs σ !! src with
  | None => (Raise FileNotFoundError, σ)
  | Some content =>
      if String.eqb src dst then (Raise SameFileError, σ)
      else write_file dst content σ
  end.

(** [==] on floats, by value: [nan] equals nothing, the two zeros are equal. *)
Definition float_eqb (f g : spec_float) : bool :=
  match f, g with
  | S754_zero _, S754_zero _ => true
  | S754_infinity s, S754_infinity t => Bool.eqb s t
  | S754_finite s m e, S754_finite t n k =>
      Bool.eqb s t &&
      (Z.shiftl (Z.pos m) (e - Z.min e k) =? Z.shiftl (Z.pos n) (k - Z.min e k))
  | _, _ => false
  end.

Definition same_key (x : spec_float) (k : value) : bool :=
  match k with
  | VFloat g => float_eqb x g
  | _ => false
  end.

Fixpoint counter_add (x : spec_float) (c : counter) : counter :=
  match c with
  | [] => [(VFloat x, 1)]
  | (k, n) :: c' =>
      if same_key x k then (k, n + 1) :: c' else (k, n) :: counter_add x c'
  end.

(** [Counter(class_ids)] *)
Definition Counter (class_ids : list spec_float) : counter :=
  fold_left (λ c x, counter_add x c) class_ids [].

(** A new object on the heap. *)
Definition alloc (c : counter) : M nat := λ σ,
  let l := fresh (dom (heap σ)) in
  (Ok l, set_heap (<[l := c]> (heap σ)) σ).

(** *** [predict_damage] *)

(** The body of the [try] block. *)
Definition analysis `{External} (file : FileStorage) (car_brand car_model : string)
    (original_filename detected_filename : string) : M response :=
  let original_image_path := os_path_join UPLOAD_FOLDER original_filename in
  let detected_image_path := os_path_join UPLOAD_FOLDER detected_filename in
  let estimate part_prices :=
    RenderEstimate {|
      original_image := url_for_static ("uploads/" +:+ original_filename);
      detected_image := url_for_static ("uploads/" +:+ detected_filename);
      part_prices := part_prices;
      car_info := (car_brand, car_model) |} in
  let no_detections : M response :=
    copyfile original_image_path detected_image_path;;
    mret (estimate []) in
  file_save file original_image_path;;
  results ← MODEL_call original_image_path;
  match head results with
  | Some result =>
      match boxes result with
      | _ :: _ =>
          let class_ids := boxes result in
          class_counts ← alloc (Counter class_ids);
          result_save result detected_image_path;;
          part_prices ← calculate_prices car_brand car_model class_counts;
          mret (estimate part_prices)
      | [] => no_detections
      end
  | None => no_detections
  end.

(** Truth values: an upload is true when its file name is not empty, a
    form field when it is present and not empty. *)
Definition truthy_file (file : option FileStorage) : bool :=
  match file with
  | Some f => negb (String.eqb (filename f) "")
  | None => false
  end.

Definition truthy_str (s : option string) : bool :=
  match s with
  | Some s => negb (String.eqb s "")
  | None => false
  end.

(** The names the two images are stored under. *)
Definition original_name (unique_id filename : string) : string :=
  "original_" +:+ unique_id +:+ "_" +:+ filename.

Definition detected_name (unique_id filename : string) : string :=
  "detected_" +:+ unique_id +:+ "_" +:+ filename.

(** [unique_id] is the value [os.urandom(8).hex()] takes in this request. *)
Definition predict_damage `{External} (req : request) (unique_id : string) : M response :=
  brands ← read AVAILABLE_BRANDS;
  prices ← read CAR_PRICES;
  let form error := RenderPredict {| brands := brands; prices := prices; error := error |} in
  match method req with
  | GET => mret (form None)
  | POST =>
      model ← read MODEL;
      if negb model then
        mret (form (Some "The YOLO model failed to load. Cannot perform damage analysis."))
      else
        file ← lift (files_image req);
        let car_brand := form_car_brand req in
        let car_model := form_car_model req in
        if negb (forallb id [truthy_file file; truthy_str car_brand; truthy_str car_model]) then
          mret (form (Some "Please select a car and upload an image."))
        else
          match file, car_brand, car_model with
          | Some file, Some car_brand, Some car_model =>
              if String.eqb (filename file) "" then
                mret (form (Some "Please upload an image."))
              else
                let filename := secure_filename (filename file) in
                if negb (allowed_file filename) then
                  mret (form (Some "Invalid file type. Please upload a PNG, JPG, or JPEG image."))
                else
                  let original_filename := original_name unique_id filename in
                  let detected_filename := detected_name unique_id filename in
                  try_except
                    (analysis file car_brand car_model original_filename detected_filename)
                    (λ e, Some (
                       print ("An error occurred during prediction: " +:+ str_of_exn e);;
                       mret (form (Some ("An unexpected error occurred during analysis: "
                                         +:+ str_of_exn e)))))
          | _, _, _ =>
              (* not reached: the three values are true here, so none is [None] *)
              mret (form (Some "Please select a car and upload an image."))
          end
  end.

(** [home]: the root URL redirects to the upload form. *)
Definition home : response := Redirect "/predict".

(** * Vocabulary of the properties *)

(** ** Frames and outcomes *)

(** [only_prints m]: running [m] changes nothing of the state but standard
    output, to which it appends. *)
Definition only_prints {A} (m : M A) : Prop :=
  ∀ σ, ∃ out, (m σ).2 = set_stdout (stdout σ ++ out) σ.

(** [returns_with P (r, σ)]: when the outcome is a value, it satisfies [P]. *)
Definition returns_with {A} (P : A → Prop) (outcome : result A * world) : Prop :=
  match outcome.1 with
  | Ok a => P a
  | Raise _ => True
  end.

Definition keys_are_part_names (prices : breakdown) : Prop :=
  Forall (λ name, name ∈ class_names) prices.*1.

(** ** The breakdown a class-count mapping calls for *)

(** What one item [(class_id, count)] of the class counts contributes: an
    entry under the part name, when the identifier resolves to a name that
    has a price; its count is the item's count and its total the unit price
    times the count. *)
Definition priced_entry (model_prices : gmap string json) (item : value * Z)
    : option (string * entry) :=
  match get_part_name_from_id item.1 with
  | Ok (Some name) =>
      match model_prices !! name with
      | Some (JInt unit_price) =>
          Some (name, Entry item.2 (JInt unit_price) (JInt (unit_price * item.2)))
      | _ => None
      end
  | _ => None
  end.

(** The warning an item causes: one line when its identifier resolves to a
    name without a price, none otherwise. *)
Definition price_warning (car_model : string) (model_prices : gmap string json)
    (item : value * Z) : option string :=
  match get_part_name_from_id item.1 with
  | Ok (Some name) =>
      match model_prices !! name with
      | None => Some ("WARNING: Part '" +:+ name +:+ "' detected but no price found for "
                      +:+ car_model +:+ ".")
      | Some _ => None
      end
  | _ => None
  end.

(** Unit prices that are integers. *)
Definition integer_prices (model_prices : gmap string json) : Prop :=
  ∀ name p, model_prices !! name = Some p → ∃ z, p = JInt z.

(** [unitPrice * count] for a unit price that is a number: the product of
    the integers for an integer price; for a float price the IEEE product of
    the price and the count made a float, which there is none of for a count
    beyond the doubles. *)
Definition product (unit_price : json) (n : Z) : option json :=
  match unit_price with
  | JInt p => Some (JInt (p * n))
  | JFloat f =>
      match float_of_int n with
      | Ok g => Some (JFloat (SFmul 53 1024 f g))
      | Raise _ => None
      end
  | _ => None
  end.

(** What one item [(class_id, count)] contributes when prices are numbers,
    integers or floats: an entry under the part name, when the identifier
    resolves to a name that has a price; its count is the item's count, its
    price the unit price and its total the product of the two. *)
Definition breakdown_entry (model_prices : gmap string json) (item : value * Z)
    : option (string * entry) :=
  match get_part_name_from_id item.1 with
  | Ok (Some name) =>
      match model_prices !! name with
      | Some unit_price =>
          match product unit_price item.2 with
          | Some total => Some (name, Entry item.2 unit_price total)
          | None => None
          end
      | None => None
      end
  | _ => None
  end.

(** The product the item calls for can be computed: when its identifier
    resolves to a part with a price, the price is a number, and the count
    converts to a float if the price is one. *)
Definition product_defined (model_prices : gmap string json) (item : value * Z) : Prop :=
  match get_part_name_from_id item.1 with
  | Ok (Some name) =>
      match model_prices !! name with
      | Some unit_price => is_Some (product unit_price item.2)
      | None => True
      end
  | _ => True
  end.

(** The lookup returns for the identifier: a name, or [None]. *)
Definition lookup_returns (class_id : value) : Prop :=
  ∃ part_name, get_part_name_from_id class_id = Ok part_name.

(** Setting the items of a list, one after the other, in a dict. *)
Definition dict_update {V} (d : list (string * V)) (items : list (string * V)) :=
  fold_left (λ d item, dict_set item.1 item.2 d) items d.

(** ** Requests *)

(** A request that passes validation: a POST with the model loaded, an
    upload with a file name, a brand and a model, and an allowed extension. *)
Definition accepted `{External} (σ : world) (req : request)
    (file : FileStorage) (car_brand car_model : string) : Prop :=
  method req = POST ∧
  MODEL σ = true ∧
  files_image req = Ok (Some file) ∧
  form_car_brand req = Some car_brand ∧
  form_car_model req = Some car_model ∧
  filename file ≠ "" ∧ car_brand ≠ "" ∧ car_model ≠ "" ∧
  allowed_file (secure_filename (filename file)) = true.

(** The exception, if any, with which the framework refuses the body of a
    request when the handler reads it: the handler reads the body of a POST
    request once it has found the model loaded. *)
Definition body_refusal (σ : world) (req : request) : option exn :=
  match method req with
  | GET => None
  | POST =>
      if MODEL σ then
        match files_image req with
        | Raise e => Some e
        | Ok _ => None
        end
      else None
  end.

(** A detection run without detections: no result at all, or a first result
    without boxes. *)
Definition zero_detections (results : list Results) : Prop :=
  match head results with
  | Some result => boxes result = []
  | None => True
  end.

(** ** Further vocabulary *)

(** The class identifiers a detector yields, and their like: [None],
    booleans, integers and finite floats. *)
Definition plain_id (class_id : value) : bool :=
  match class_id with
  | VNone | VBool _ | VInt _ => true
  | VFloat (S754_zero _) | VFloat (S754_finite _ _ _) => true
  | VFloat (S754_infinity _) | VFloat S754_nan | VStr _ => false
  end.

(** A class identifier within the strings that [int_of_str] reads as
    [int] does: one that is no string with a character beyond ASCII. *)
Definition ascii_text (class_id : value) : Prop :=
  match class_id with
  | VStr s => isascii s = true
  | _ => True
  end.

(** JSON values that are no containers: [in] and indexing raise on them. *)
Definition is_scalar (j : json) : bool :=
  match j with
  | JNull | JBool _ | JInt _ | JFloat _ => true
  | JStr _ | JArr _ | JObj _ => false
  end.

(** An entry that agrees with the price map: its unit price is the price of
    its part, and its total the unit price times its count. *)
Definition entry_matches (model_prices : gmap string json) (item : string * entry) : Prop :=
  ∃ unit_price,
    model_prices !! item.1 = Some (JInt unit_price) ∧
    price item.2 = JInt unit_price ∧
    total item.2 = JInt (unit_price * count item.2).

(** [keeps_globals m]: running [m] leaves the three globals as they were. *)
Definition keeps_globals {A} (m : M A) : Prop :=
  ∀ σ, CAR_PRICES (m σ).2 = CAR_PRICES σ ∧
       AVAILABLE_BRANDS (m σ).2 = AVAILABLE_BRANDS σ ∧
       MODEL (m σ).2 = MODEL σ.

(** [writes_only paths m]: running [m] leaves every file outside [paths] as
    it was. *)
Definition writes_only {A} (paths : list string) (m : M A) : Prop :=
  ∀ σ p, p ∉ paths → fs (m σ).2 !! p = fs σ !! p.

(** [frame paths σ σ']: from [σ] to [σ'] the three globals are unchanged,
    and so is every file outside [paths]. *)
Definition frame (paths : list string) (σ σ' : world) : Prop :=
  CAR_PRICES σ' = CAR_PRICES σ ∧
  AVAILABLE_BRANDS σ' = AVAILABLE_BRANDS σ ∧
  MODEL σ' = MODEL σ ∧
  ∀ p, p ∉ paths → fs σ' !! p = fs σ !! p.

(** The paths a request may write: those of its two images. *)
Definition upload_paths `{External} (req : request) (unique_id : string) : list string :=
  match files_image req with
  | Ok (Some file) =>
      [os_path_join UPLOAD_FOLDER (original_name unique_id (secure_filename (filename file)));
       os_path_join UPLOAD_FOLDER (detected_name unique_id (secure_filename (filename file)))]
  | _ => []
  end.

(** ** Sample data *)

Definition sample_prices : gmap string json :=
  {[ "Bonnet" := JInt 100; "Light" := JInt 50 ]}.

Definition sample_table : gmap string json :=
  {[ "Audi" := JObj {[ "A4" := JObj sample_prices ]} ]}.

Definition sample_brands : gmap string json :=
  {[ "Toyota" := JObj ∅; "Audi" := JObj {[ "A4" := JObj sample_prices ]}; "Honda" := JObj ∅ ]}.

(** A state with the sample table loaded and one class-count object, at
    reference 0. *)
Definition sample_world (items : counter) : world :=
  World (JObj sample_table) ["Audi"] true [] ∅ {[ 0%nat := items ]}.

(** A table with a float price: 1.5 for the bonnet. *)
Definition one_and_a_half : spec_float := S754_finite false 6755399441055744 (-52).

Definition float_prices : gmap string json :=
  {[ "Bonnet" := JFloat one_and_a_half; "Light" := JInt 50 ]}.

Definition float_table : gmap string json :=
  {[ "Fiat" := JObj {[ "Uno" := JObj float_prices ]} ]}.

Definition float_world (items : counter) : world :=
  World (JObj float_table) ["Fiat"] true [] ∅ {[ 0%nat := items ]}.

(** The bytes of a file that is no text in UTF-8. *)
Definition undecodable_bytes : string := String (ascii_of_nat 255) "".

(** A sample environment: a parser that knows one text and finds the bytes
    above undecodable, the identity as sanitizer (the sample names are
    clean), one text for every exception, and the disk and the detector
    given. *)
Definition sample_external_on (disk : string → string → option (exn * option string))
    (detector : string → result (list Results)) : External := {|
  json_loads content :=
    if String.eqb content "sample price file" then Ok (JObj sample_brands)
    else if String.eqb content undecodable_bytes then Raise UnicodeDecodeError
    else Raise JSONDecodeError;
  secure_filename name := name;
  str_of_exn e := "failure";
  detect := detector;
  write_fault := disk;
|}.

(** The sample environment on a disk that takes every file. *)
Definition sample_external (detector : string → result (list Results)) : External :=
  sample_external_on (λ _ _, None) detector.

(** A disk that refuses every file, writing nothing. *)
Definition full_disk (path content : string) : option (exn * option string) :=
  Some (OSError, None).

Definition sample_upload (name : string) : FileStorage :=
  {| filename := name; stream := "image bytes" |}.

(** A detection library that has only its fallback weights. *)
Definition sample_YOLO (path : string) : result unit :=
  if String.eqb path "yolov8n.pt" then Ok tt else Raise FileNotFoundError.

Definition sample_request (name : string) : request := {|
  method := POST;
  content_length := 2048;
  parsed_image := Ok (Some (sample_upload name));
  form_car_brand := Some "Audi";
  form_car_model := Some "A4";
|}.

(** The same request with a body of 17 MiB. *)
Definition oversized_request : request := {|
  method := POST;
  content_length := 17 * 1024 * 1024;
  parsed_image := Ok (Some (sample_upload "car.jpg"));
  form_car_brand := Some "Audi";
  form_car_model := Some "A4";
|}.

(** * Properties *)

(** ** Part-name resolution *)

Example get_part_name_0 : get_part_name_from_id (VInt 0) = Ok (Some "Bonnet").
Proof. reflexivity. Qed.

Example get_part_name_5_float :
  get_part_name_from_id (VFloat (S754_finite false 5 0)) = Ok (Some "Light").
Proof. reflexivity. Qed.

Example get_part_name_7 : get_part_name_from_id (VInt 7) = Ok None.
Proof. reflexivity. Qed.

Example get_part_name_minus_1 :
  get_part_name_from_id (VInt (-1)) = Ok (Some "Windshield").
Proof. reflexivity. Qed.

Example get_part_name_numeric_str : get_part_name_from_id (VStr " 3 ") = Ok (Some "Door").
Proof. reflexivity. Qed.

Lemma list_getitem_elem_of {A} (l : list A) i x :
  list_getitem l i = Ok x → x ∈ l.
Proof.
  unfold list_getitem.
  destruct (_ && _); [|discriminate].
  destruct (l !! _) eqn:Hlookup; [|discriminate].
  intros [= <-]. by eapply list_elem_of_lookup_2.
Qed.

Lemma list_getitem_out_of_range {A} (l : list A) i :
  i < - Z.of_nat (length l) ∨ Z.of_nat (length l) <= i →
  list_getitem l i = Raise IndexError.
Proof.
  intros Hrange. unfold list_getitem.
  destruct (i <? 0) eqn:Hneg; [apply Z.ltb_lt in Hneg | apply Z.ltb_ge in Hneg].
  - destruct (0 <=? i + _) eqn:Hlow; [apply Z.leb_le in Hlow | done].
    destruct (i + _ <? _) eqn:Hhigh; [|done]. lia.
  - destruct (0 <=? i) eqn:Hlow; [|done].
    destruct (i <? _) eqn:Hhigh; [apply Z.ltb_lt in Hhigh | done]. lia.
Qed.

(** A resolved name is one of the seven names of the table. *)
Lemma get_part_name_elem_of class_id name :
  get_part_name_from_id class_id = Ok (Some name) → name ∈ class_names.
Proof.
  unfold get_part_name_from_id.
  destruct (py_int class_id) as [i|e]; simpl.
  - destruct (list_getitem class_names i) as [x|e] eqn:Hget; simpl.
    + intros [= <-]. by eapply list_getitem_elem_of.
    + by destruct e.
  - by destruct e.
Qed.

Lemma class_names_nonempty name : name ∈ class_names → truthy_name (Some name) = Some name.
Proof.
  unfold class_names. rewrite !elem_of_cons, elem_of_nil.
  intros [->|[->|[->|[->|[->|[->|[->|[]]]]]]]]; reflexivity.
Qed.

(** What the function does return [None] for: an integer outside
    [-7 .. 6], and the value [None]. *)
Lemma get_part_name_int_out_of_range i :
  i < -7 ∨ 7 <= i → get_part_name_from_id (VInt i) = Ok None.
Proof.
  intros Hrange. unfold get_part_name_from_id. simpl.
  rewrite list_getitem_out_of_range; [reflexivity | simpl; lia].
Qed.

Lemma get_part_name_None : get_part_name_from_id VNone = Ok None.
Proof. reflexivity. Qed.

(** A string that is no integer literal makes the function raise. *)
Lemma get_part_name_non_numeric_str s :
  int_of_str s = None → get_part_name_from_id (VStr s) = Raise ValueError.
Proof. intros Hparse. unfold get_part_name_from_id. simpl. by rewrite Hparse. Qed.

(** C2: the string ["abc"] is a class identifier that is not a number, and
    [get_part_name_from_id] does not return [None] for it: [int("abc")]
    raises [ValueError], which [except (IndexError, TypeError)] does not
    catch, so the exception leaves the function.  The floats [nan] and
    [inf], which no index range holds, leave it with [ValueError] and
    [OverflowError] in the same way. *)
Lemma get_part_name_from_id_raises :
  get_part_name_from_id (VStr "abc") = Raise ValueError ∧
  get_part_name_from_id (VFloat S754_nan) = Raise ValueError ∧
  get_part_name_from_id (VFloat (S754_infinity false)) = Raise OverflowError.
Proof.
  split; [by apply get_part_name_non_numeric_str|].
  split; reflexivity.
Qed.

(** ** Stateful code that only prints *)

Lemma set_stdout_id σ : set_stdout (stdout σ ++ []) σ = σ.
Proof. destruct σ. unfold set_stdout. simpl. by rewrite app_nil_r. Qed.

Lemma set_stdout_twice σ out1 out2 :
  set_stdout (stdout (set_stdout (stdout σ ++ out1) σ) ++ out2) (set_stdout (stdout σ ++ out1) σ)
  = set_stdout (stdout σ ++ (out1 ++ out2)) σ.
Proof. unfold set_stdout. simpl. by rewrite app_assoc. Qed.

Lemma only_prints_ret {A} (a : A) : only_prints (mret a).
Proof. intros σ. exists []. simpl. by rewrite set_stdout_id. Qed.

Lemma only_prints_lift {A} (r : result A) : only_prints (lift r).
Proof. intros σ. exists []. simpl. by rewrite set_stdout_id. Qed.

Lemma only_prints_read {A} (field : world → A) : only_prints (read field).
Proof. intros σ. exists []. simpl. by rewrite set_stdout_id. Qed.

Lemma only_prints_print line : only_prints (print line).
Proof. intros σ. by exists [line]. Qed.

Lemma only_prints_bind {A B} (m : M A) (f : A → M B) :
  only_prints m → (∀ a, only_prints (f a)) → only_prints (m ≫= f).
Proof.
  intros Hm Hf σ. destruct (Hm σ) as [out1 Hout1].
  unfold mbind, M_bind. destruct (m σ) as [[a|e] σ1]; simpl in *; subst σ1.
  - destruct (Hf a (set_stdout (stdout σ ++ out1) σ)) as [out2 Hout2].
    exists (out1 ++ out2). by rewrite Hout2, set_stdout_twice.
  - by exists out1.
Qed.

Lemma only_prints_for_each {A B} (items : list A) (acc : B) (body : B → A → M B) :
  (∀ acc x, only_prints (body acc x)) → only_prints (for_each items acc body).
Proof.
  intros Hbody. revert acc.
  induction items as [|x rest IH]; intros acc; simpl.
  - apply only_prints_ret.
  - apply only_prints_bind; [apply Hbody | intros acc'; apply IH].
Qed.

Create HintDb prints.
Hint Resolve only_prints_ret only_prints_lift only_prints_read only_prints_print : prints.

Lemma only_prints_price_step car_model model_prices acc item :
  only_prints (price_step car_model model_prices acc item).
Proof.
  destruct item as [class_id n]. unfold price_step.
  apply only_prints_bind; [auto with prints|]. intros part_name.
  destruct (truthy_name part_name) as [name|]; [|auto with prints].
  apply only_prints_bind; [auto with prints|]. intros [|].
  - apply only_prints_bind; [auto with prints|]. intros p.
    apply only_prints_bind; auto with prints.
  - apply only_prints_bind; auto with prints.
Qed.

Lemma only_prints_calculate_prices car_brand car_model class_counts :
  only_prints (calculate_prices car_brand car_model class_counts).
Proof.
  unfold calculate_prices.
  apply only_prints_bind; [auto with prints|]. intros table.
  apply only_prints_bind; [auto with prints|]. intros [|].
  - apply only_prints_bind; auto with prints.
  - apply only_prints_bind; [auto with prints|]. intros model_prices.
    apply only_prints_bind; [unfold dict_items; auto with prints|]. intros items.
    apply only_prints_for_each. intros. apply only_prints_price_step.
Qed.

(** ** The keys of a breakdown *)

Lemma returns_with_True {A} (outcome : result A * world) : returns_with (λ _, True) outcome.
Proof. unfold returns_with. by destruct outcome.1. Qed.

Lemma returns_with_bind {A B} (P : A → Prop) (Q : B → Prop) (m : M A) (f : A → M B) σ :
  returns_with P (m σ) → (∀ a σ', P a → returns_with Q (f a σ')) →
  returns_with Q ((m ≫= f) σ).
Proof.
  unfold returns_with, mbind, M_bind. intros Hm Hf.
  destruct (m σ) as [[a|e] σ1]; simpl in *; [by apply Hf | done].
Qed.

Lemma returns_with_for_each {A B} (P : B → Prop) (items : list A) (body : B → A → M B) :
  (∀ acc x σ, P acc → returns_with P (body acc x σ)) →
  ∀ acc σ, P acc → returns_with P (for_each items acc body σ).
Proof.
  intros Hbody. induction items as [|x rest IH]; intros acc σ Hacc; simpl.
  - done.
  - eapply returns_with_bind; [by apply Hbody | intros; by apply IH].
Qed.

Lemma dict_set_keys {V} (P : string → Prop) k (v : V) d :
  P k → Forall P d.*1 → Forall P (dict_set k v d).*1.
Proof.
  intros Hk. induction d as [|[k' v'] d IH]; simpl; intros Hd.
  - by constructor.
  - inversion_clear Hd. destruct (String.eqb k k'); simpl; constructor; auto.
Qed.

Lemma price_step_keys car_model model_prices acc item σ :
  keys_are_part_names acc →
  returns_with keys_are_part_names (price_step car_model model_prices acc item σ).
Proof.
  intros Hacc. destruct item as [class_id n]. unfold price_step.
  unfold returns_with, mbind, M_bind, lift, print, write. simpl.
  destruct (get_part_name_from_id class_id) as [part_name|e] eqn:Hname; simpl; [|done].
  destruct (truthy_name part_name) as [name|] eqn:Htruthy; simpl; [|done].
  assert (name ∈ class_names) as Hin.
  { destruct part_name as [name'|]; [|done].
    apply get_part_name_elem_of in Hname.
    rewrite (class_names_nonempty _ Hname) in Htruthy. by injection Htruthy as <-. }
  destruct (py_contains name model_prices) as [[|]|e]; simpl; [|done|done].
  destruct (py_getitem model_prices name) as [p|e]; simpl; [|done].
  destruct (py_mul p n) as [t|e]; simpl; [|done].
  by apply dict_set_keys.
Qed.

Lemma calculate_prices_keys car_brand car_model class_counts σ :
  returns_with keys_are_part_names (calculate_prices car_brand car_model class_counts σ).
Proof.
  unfold calculate_prices.
  eapply returns_with_bind; [apply returns_with_True|]. intros table σ1 _.
  eapply returns_with_bind; [apply returns_with_True|]. intros [|] σ2 _.
  - eapply returns_with_bind; [apply returns_with_True|]. intros _ σ3 _.
    unfold returns_with, keys_are_part_names. simpl. constructor.
  - eapply returns_with_bind; [apply returns_with_True|]. intros model_prices σ3 _.
    eapply returns_with_bind; [apply returns_with_True|]. intros items σ4 _.
    apply returns_with_for_each.
    + intros acc x σ5 Hacc. by apply price_step_keys.
    + unfold keys_are_part_names. simpl. constructor.
Qed.

(** C10: [calculate_prices] leaves the global price table and the class-count
    object it was passed as they were (of the whole state only standard
    output grows), and every key of the breakdown it returns is one of the
    seven part names. *)
Theorem calculate_prices_frame car_brand car_model class_counts σ :
  let outcome := calculate_prices car_brand car_model class_counts σ in
  CAR_PRICES outcome.2 = CAR_PRICES σ ∧
  heap outcome.2 = heap σ ∧
  (∃ out, outcome.2 = set_stdout (stdout σ ++ out) σ) ∧
  match outcome.1 with
  | Ok prices => Forall (λ name, name ∈ class_names) prices.*1
  | Raise _ => True
  end.
Proof.
  intros outcome.
  destruct (only_prints_calculate_prices car_brand car_model class_counts σ) as [out Hout].
  fold outcome in Hout.
  repeat split.
  - by rewrite Hout.
  - by rewrite Hout.
  - by exists out.
  - apply (calculate_prices_keys car_brand car_model class_counts σ).
Qed.

(** ** Looking a car up in the price table *)

Lemma py_contains_obj_Some d key v : d !! key = Some v → py_contains key (JObj d) = Ok true.
Proof. intros Hkey. simpl. by rewrite Hkey, bool_decide_true. Qed.

Lemma py_contains_obj_None d key : d !! key = None → py_contains key (JObj d) = Ok false.
Proof.
  intros Hkey. simpl. rewrite Hkey, bool_decide_false; [done|]. by intros [v Hv].
Qed.

Lemma price_data_missing_brand table car_brand car_model :
  table !! car_brand = None → price_data_missing (JObj table) car_brand car_model = Ok true.
Proof.
  intros Hbrand. unfold price_data_missing. by rewrite (py_contains_obj_None _ _ Hbrand).
Qed.

Lemma price_data_missing_model table car_brand car_model models :
  table !! car_brand = Some (JObj models) → models !! car_model = None →
  price_data_missing (JObj table) car_brand car_model = Ok true.
Proof.
  intros Hbrand Hmodel. unfold price_data_missing.
  rewrite (py_contains_obj_Some _ _ _ Hbrand). simpl. rewrite Hbrand. simpl.
  by rewrite Hmodel, bool_decide_false; [|intros [v Hv]].
Qed.

Lemma price_data_missing_found table car_brand car_model models model_prices :
  table !! car_brand = Some (JObj models) → models !! car_model = Some model_prices →
  price_data_missing (JObj table) car_brand car_model = Ok false.
Proof.
  intros Hbrand Hmodel. unfold price_data_missing.
  rewrite (py_contains_obj_Some _ _ _ Hbrand). simpl. rewrite Hbrand. simpl.
  by rewrite Hmodel, bool_decide_true.
Qed.

(** With an empty price table every car is unknown. *)
Lemma calculate_prices_empty_table car_brand car_model class_counts σ :
  CAR_PRICES σ = JObj ∅ →
  (calculate_prices car_brand car_model class_counts σ).1 = Ok [].
Proof.
  intros Htable.
  unfold calculate_prices, mbind, M_bind, read, lift. simpl.
  by rewrite Htable, price_data_missing_brand.
Qed.

(** ** One iteration of the pricing loop *)

Local Arguments truthy_name : simpl never.

Lemma price_step_priced car_model model_prices acc class_id n σ name p t :
  get_part_name_from_id class_id = Ok (Some name) →
  model_prices !! name = Some p →
  py_mul p n = Ok t →
  price_step car_model (JObj model_prices) acc (class_id, n) σ
  = (Ok (dict_set name (Entry n p t) acc), σ).
Proof.
  intros Hname Hprice Hmul.
  unfold price_step, mbind, M_bind, lift. simpl. rewrite Hname. simpl.
  rewrite (class_names_nonempty _ (get_part_name_elem_of _ _ Hname)).
  by rewrite Hprice, bool_decide_true, Hmul.
Qed.

Lemma price_step_unpriced car_model model_prices acc class_id n σ name :
  get_part_name_from_id class_id = Ok (Some name) →
  model_prices !! name = None →
  price_step car_model (JObj model_prices) acc (class_id, n) σ
  = (Ok acc,
     set_stdout (stdout σ ++ ["WARNING: Part '" +:+ name +:+ "' detected but no price found for "
                              +:+ car_model +:+ "."]) σ).
Proof.
  intros Hname Hprice.
  unfold price_step, mbind, M_bind, lift. simpl. rewrite Hname. simpl.
  rewrite (class_names_nonempty _ (get_part_name_elem_of _ _ Hname)).
  by rewrite Hprice, bool_decide_false; [|intros [v Hv]].
Qed.

Lemma price_step_unresolved car_model model_prices acc class_id n σ :
  get_part_name_from_id class_id = Ok None →
  price_step car_model model_prices acc (class_id, n) σ = (Ok acc, σ).
Proof.
  intros Hname. unfold price_step, mbind, M_bind, lift. simpl. by rewrite Hname.
Qed.

(** An identifier the lookup raises for stops the loop with that exception. *)
Lemma price_step_raises car_model model_prices acc class_id n σ e :
  get_part_name_from_id class_id = Raise e →
  price_step car_model model_prices acc (class_id, n) σ = (Raise e, σ).
Proof.
  intros Hname. unfold price_step, mbind, M_bind, lift. simpl. by rewrite Hname.
Qed.

(** ** Dicts in insertion order *)

Lemma dict_set_fresh {V} k (v : V) d : k ∉ d.*1 → dict_set k v d = d ++ [(k, v)].
Proof.
  induction d as [|[k' v'] d IH]; simpl; [done|].
  rewrite not_elem_of_cons. intros [Hne Hnotin].
  apply String.eqb_neq in Hne. rewrite Hne. by rewrite IH.
Qed.

Lemma dict_update_fresh {V} (d items : list (string * V)) :
  NoDup (d ++ items).*1 → dict_update d items = d ++ items.
Proof.
  revert d. induction items as [|[k v] items IH]; intros d Hnodup; simpl.
  - by rewrite app_nil_r.
  - unfold dict_update in *. simpl.
    rewrite fmap_app, NoDup_app in Hnodup. destruct Hnodup as (Hd & Hdisj & Hitems).
    rewrite dict_set_fresh.
    + rewrite IH; [by rewrite <- app_assoc|].
      rewrite <- app_assoc, fmap_app. simpl.
      apply NoDup_app. repeat split; [done|done|done].
    + intros Hin. apply (Hdisj k Hin). simpl. left.
Qed.

(** The loop, for identifiers the lookup returns for and integer unit
    prices: the entries of the items are set in the order of the items, and
    the warnings are printed in that order. *)
Lemma for_each_price_step car_model model_prices items :
  integer_prices model_prices →
  Forall (λ item, lookup_returns item.1) items →
  ∀ acc σ,
    for_each items acc (price_step car_model (JObj model_prices)) σ
    = (Ok (dict_update acc (omap (priced_entry model_prices) items)),
       set_stdout (stdout σ ++ omap (price_warning car_model model_prices) items) σ).
Proof.
  intros Hint Hitems. induction Hitems as [|[class_id n] items [part_name Hname] _ IH];
    intros acc σ.
  - simpl. by rewrite set_stdout_id.
  - cbn [for_each omap list_omap]. unfold mbind at 1, M_bind at 1.
    unfold priced_entry at 1, price_warning at 1. simpl in Hname. cbn [fst snd].
    rewrite Hname.
    destruct part_name as [name|].
    + destruct (model_prices !! name) as [p|] eqn:Hprice.
      * destruct (Hint _ _ Hprice) as [z ->].
        rewrite (price_step_priced _ _ _ _ _ _ name (JInt z) (JInt (z * n))) by done.
        by rewrite IH.
      * rewrite (price_step_unpriced _ _ _ _ _ _ name) by done.
        rewrite IH. by rewrite set_stdout_twice.
    + rewrite price_step_unresolved by done. by rewrite IH.
Qed.

Lemma product_py_mul unit_price n t : product unit_price n = Some t → py_mul unit_price n = Ok t.
Proof.
  destruct unit_price as [| |p|f| | |]; simpl; try discriminate.
  - by intros [= <-].
  - destruct (float_of_int n) as [g|e]; simpl; [by intros [= <-] | discriminate].
Qed.

(** For integer prices the two readings of an entry agree. *)
Lemma breakdown_entry_integer model_prices item :
  integer_prices model_prices → breakdown_entry model_prices item = priced_entry model_prices item.
Proof.
  intros Hint. unfold breakdown_entry, priced_entry.
  destruct (get_part_name_from_id item.1) as [[name|]|e]; [|done..].
  destruct (model_prices !! name) as [p|] eqn:Hprice; [|done].
  by destruct (Hint _ _ Hprice) as [z ->].
Qed.

Lemma integer_prices_product_defined model_prices item :
  integer_prices model_prices → product_defined model_prices item.
Proof.
  intros Hint. unfold product_defined.
  destruct (get_part_name_from_id item.1) as [[name|]|e]; [|done..].
  destruct (model_prices !! name) as [p|] eqn:Hprice; [|done].
  destruct (Hint _ _ Hprice) as [z ->]. by eexists.
Qed.

(** The loop, for identifiers the lookup returns for and products that can
    be computed: the entries of the items are set in the order of the items,
    and the warnings are printed in that order. *)
Lemma for_each_price_step_numbers car_model model_prices items :
  Forall (λ item, lookup_returns item.1) items →
  Forall (product_defined model_prices) items →
  ∀ acc σ,
    for_each items acc (price_step car_model (JObj model_prices)) σ
    = (Ok (dict_update acc (omap (breakdown_entry model_prices) items)),
       set_stdout (stdout σ ++ omap (price_warning car_model model_prices) items) σ).
Proof.
  intros Hitems. induction Hitems as [|[class_id n] items [part_name Hname] _ IH];
    intros Hdefined acc σ.
  - simpl. by rewrite set_stdout_id.
  - apply Forall_cons in Hdefined as [Hproduct Hdefined].
    cbn [for_each omap list_omap]. unfold mbind at 1, M_bind at 1.
    unfold breakdown_entry at 1, price_warning at 1.
    unfold product_defined in Hproduct. simpl in Hname, Hproduct. cbn [fst snd].
    rewrite Hname in Hproduct |- *.
    destruct part_name as [name|].
    + destruct (model_prices !! name) as [p|] eqn:Hprice.
      * destruct Hproduct as [t Ht]. rewrite Ht.
        rewrite (price_step_priced _ _ _ _ _ _ name p t)
          by (done || by apply product_py_mul).
        by rewrite IH.
      * rewrite (price_step_unpriced _ _ _ _ _ _ name) by done.
        rewrite IH by done. by rewrite set_stdout_twice.
    + rewrite price_step_unresolved by done. by rewrite IH.
Qed.

(** ** [calculate_prices] over a price table *)

Section PriceTable.

Variables (σ : world) (table : gmap string json).
Hypothesis Htable : CAR_PRICES σ = JObj table.

(** C3: when the brand is not in the price table, or the model is not in
    the brand's entry, [calculate_prices] returns the empty breakdown
    whatever the class-count mapping is; it raises nothing, and prints one
    warning. *)
Theorem calculate_prices_unknown_car car_brand car_model class_counts :
  (table !! car_brand = None ∨
   ∃ models, table !! car_brand = Some (JObj models) ∧ models !! car_model = None) →
  calculate_prices car_brand car_model class_counts σ
  = (Ok [],
     set_stdout (stdout σ ++ ["WARNING: Price data not found for " +:+ car_brand +:+ " - "
                              +:+ car_model +:+ ". Cannot calculate prices."]) σ).
Proof.
  intros Habsent.
  assert (price_data_missing (JObj table) car_brand car_model = Ok true) as Hmissing.
  { destruct Habsent as [Hbrand|(models & Hbrand & Hmodel)].
    - by apply price_data_missing_brand.
    - by eapply price_data_missing_model. }
  unfold calculate_prices, mbind, M_bind, read, lift. simpl.
  by rewrite Htable, Hmissing.
Qed.

Section KnownCar.

Variables (car_brand car_model : string) (models model_prices : gmap string json).
Hypothesis Hbrand : table !! car_brand = Some (JObj models).
Hypothesis Hmodel : models !! car_model = Some (JObj model_prices).

(** With the car in the table, [calculate_prices] is its loop over the
    items of the class counts. *)
Lemma calculate_prices_found class_counts items :
  heap σ !! class_counts = Some items →
  calculate_prices car_brand car_model class_counts σ
  = for_each items [] (price_step car_model (JObj model_prices)) σ.
Proof.
  intros Hitems.
  unfold calculate_prices, mbind, M_bind, read, lift, dict_items. simpl.
  rewrite Htable, (price_data_missing_found _ _ _ _ _ Hbrand Hmodel). simpl.
  rewrite Hbrand. simpl. by rewrite Hmodel, Hitems.
Qed.

(** C4: with class counts [{0: 2, 5: 1}] and a price map that gives
    ["Bonnet"] the price 100 and ["Light"] the price 50 for the selected
    brand and model, [calculate_prices] returns exactly
    [{"Bonnet": {count: 2, price: 100, total: 200},
      "Light": {count: 1, price: 50, total: 50}}], and prints nothing. *)
Theorem calculate_prices_bonnet_light class_counts :
  model_prices !! "Bonnet" = Some (JInt 100) →
  model_prices !! "Light" = Some (JInt 50) →
  heap σ !! class_counts = Some [(VInt 0, 2); (VInt 5, 1)] →
  calculate_prices car_brand car_model class_counts σ
  = (Ok [("Bonnet", Entry 2 (JInt 100) (JInt 200));
         ("Light", Entry 1 (JInt 50) (JInt 50))],
     σ).
Proof.
  intros Hbonnet Hlight Hitems.
  rewrite (calculate_prices_found _ _ Hitems).
  cbn [for_each]. unfold mbind at 1, M_bind at 1.
  rewrite (price_step_priced _ _ _ _ _ _ "Bonnet" (JInt 100) (JInt 200)) by done.
  unfold mbind at 1, M_bind at 1.
  by rewrite (price_step_priced _ _ _ _ _ _ "Light" (JInt 50) (JInt 50)).
Qed.

(** C1 (as amended): for a brand and a model of the price table, and class
    counts whose identifiers the lookup returns for, of which no two resolve
    to the same priced part name, and whose products with the prices can be
    computed (a price is an integer, or it is a float and the count converts
    to a float), [calculate_prices] returns one entry per class identifier
    that resolves to a part name with a price, in iteration order; the
    entry's count is the class count and its total the unit price times the
    count.  An identifier that resolves to a name without a price adds no
    entry and prints one warning; an identifier that does not resolve adds
    no entry and prints nothing. *)
Theorem calculate_prices_breakdown class_counts items :
  heap σ !! class_counts = Some items →
  Forall (λ item, lookup_returns item.1) items →
  Forall (product_defined model_prices) items →
  NoDup (omap (breakdown_entry model_prices) items).*1 →
  calculate_prices car_brand car_model class_counts σ
  = (Ok (omap (breakdown_entry model_prices) items),
     set_stdout (stdout σ ++ omap (price_warning car_model model_prices) items) σ).
Proof.
  intros Hitems Hreturns Hdefined Hnodup.
  rewrite (calculate_prices_found _ _ Hitems).
  rewrite for_each_price_step_numbers by done.
  by rewrite dict_update_fresh.
Qed.

End KnownCar.

End PriceTable.

(** *** On the sample table *)

Lemma sample_prices_integer : integer_prices sample_prices.
Proof.
  unfold integer_prices, sample_prices. intros name p.
  rewrite lookup_insert_Some, lookup_singleton_Some.
  intros [[_ <-]|[_ [_ <-]]]; by eexists.
Qed.

(** Class counts with a part priced by a float (0), a part without a price
    (1), an identifier out of range (9) and a part priced by an integer,
    given as a float (5.0): three times 1.5 is 4.5. *)
Lemma calculate_prices_breakdown_witness :
  calculate_prices "Fiat" "Uno" 0%nat
    (float_world [(VInt 0, 3); (VInt 1, 1); (VInt 9, 4); (VFloat (S754_finite false 5 0), 3)])
  = (Ok [("Bonnet", Entry 3 (JFloat one_and_a_half)
                      (JFloat (S754_finite false 5066549580791808 (-50))));
         ("Light", Entry 3 (JInt 50) (JInt 150))],
     set_stdout ["WARNING: Part 'Bumper' detected but no price found for Uno."]
       (float_world [(VInt 0, 3); (VInt 1, 1); (VInt 9, 4);
                     (VFloat (S754_finite false 5 0), 3)])).
Proof.
  etrans.
  - apply (calculate_prices_breakdown
             (float_world [(VInt 0, 3); (VInt 1, 1); (VInt 9, 4);
                           (VFloat (S754_finite false 5 0), 3)])
             float_table eq_refl "Fiat" "Uno"
             {[ "Uno" := JObj float_prices ]} float_prices eq_refl eq_refl 0%nat
             [(VInt 0, 3); (VInt 1, 1); (VInt 9, 4); (VFloat (S754_finite false 5 0), 3)]).
    + reflexivity.
    + repeat constructor; eexists; reflexivity.
    + repeat apply Forall_cons_2; [| | | |apply Forall_nil_2];
        vm_compute; try exact I; eexists; reflexivity.
    + apply (bool_decide_unpack _). vm_compute. reflexivity.
  - reflexivity.
Defined.

(** C1 (as stated) fails.  The class counts [{0: 2, -7: 1}] hold two class
    identifiers that resolve to ["Bonnet"], which has a price, so the claim
    promises the two entries [breakdown_entry] gives; the breakdown is a
    dict keyed by part name and holds one, whose count is the count of the
    identifier met last.  And with the bonnet priced 1.5, a count of
    [2 ** 1024] does not convert to a float: the claim promises an entry
    whose total is the product, and the multiplication raises
    [OverflowError]. *)
Lemma calculate_prices_collision :
  (omap (breakdown_entry sample_prices) [(VInt 0, 2); (VInt (-7), 1)]
   = [("Bonnet", Entry 2 (JInt 100) (JInt 200)); ("Bonnet", Entry 1 (JInt 100) (JInt 100))] ∧
   (calculate_prices "Audi" "A4" 0%nat (sample_world [(VInt 0, 2); (VInt (-7), 1)])).1
   = Ok [("Bonnet", Entry 1 (JInt 100) (JInt 100))]) ∧
  (get_part_name_from_id (VInt 0) = Ok (Some "Bonnet") ∧
   float_prices !! "Bonnet" = Some (JFloat one_and_a_half) ∧
   (calculate_prices "Fiat" "Uno" 0%nat (float_world [(VInt 0, 2 ^ 1024)])).1
   = Raise OverflowError).
Proof. repeat split; vm_compute; reflexivity. Qed.

(** A model the sample table does not have, with any class counts. *)
Lemma calculate_prices_unknown_car_witness :
  calculate_prices "Audi" "Q7" 0%nat (sample_world [(VInt 0, 2); (VStr "abc", 1)])
  = (Ok [],
     set_stdout ["WARNING: Price data not found for Audi - Q7. Cannot calculate prices."]
       (sample_world [(VInt 0, 2); (VStr "abc", 1)])).
Proof.
  apply (calculate_prices_unknown_car (sample_world [(VInt 0, 2); (VStr "abc", 1)])
           sample_table eq_refl "Audi" "Q7" 0%nat).
  right. exists {[ "A4" := JObj sample_prices ]}. split; reflexivity.
Defined.

Lemma calculate_prices_bonnet_light_witness :
  calculate_prices "Audi" "A4" 0%nat (sample_world [(VInt 0, 2); (VInt 5, 1)])
  = (Ok [("Bonnet", Entry 2 (JInt 100) (JInt 200)); ("Light", Entry 1 (JInt 50) (JInt 50))],
     sample_world [(VInt 0, 2); (VInt 5, 1)]).
Proof.
  apply (calculate_prices_bonnet_light (sample_world [(VInt 0, 2); (VInt 5, 1)])
           sample_table eq_refl "Audi" "A4"
           {[ "A4" := JObj sample_prices ]} sample_prices eq_refl eq_refl 0%nat);
    reflexivity.
Defined.

(** ** Loading the price table *)

Section Loading.

Context `{External}.

Lemma load_data_missing_file σ :
  fs σ !! PRICE_JSON_PATH = None →
  load_data σ = (Ok tt, set_stdout (stdout σ ++ [price_file_not_found]) σ).
Proof.
  intros Hfile. unfold load_data, try_except, mbind, M_bind, open_read. by rewrite Hfile.
Qed.

Lemma load_data_malformed_file σ content :
  fs σ !! PRICE_JSON_PATH = Some content → json_loads content = Raise JSONDecodeError →
  load_data σ = (Ok tt, set_stdout (stdout σ ++ [price_file_malformed]) σ).
Proof.
  intros Hfile Hparse.
  unfold load_data, try_except, mbind, M_bind, open_read, lift, json_load.
  by rewrite Hfile, Hparse.
Qed.

Lemma load_data_object σ content table :
  fs σ !! PRICE_JSON_PATH = Some content → json_loads content = Ok (JObj table) →
  load_data σ
  = (Ok tt,
     set_stdout (stdout σ ++ ["✓ Pricing data loaded successfully from: " +:+ PRICE_JSON_PATH])
       (set_AVAILABLE_BRANDS (sorted (elements (dom table)))
          (set_CAR_PRICES (JObj table) σ))).
Proof.
  intros Hfile Hparse.
  unfold load_data, try_except, mbind, M_bind, open_read, lift, json_load.
  by rewrite Hfile, Hparse.
Qed.

(** A file that parses to something other than an object makes [load_data]
    raise: [keys] is a method of dicts only. *)
Lemma load_data_not_an_object σ content j :
  fs σ !! PRICE_JSON_PATH = Some content → json_loads content = Ok j →
  dict_keys j = Raise AttributeError →
  load_data σ = (Raise AttributeError, set_CAR_PRICES j σ).
Proof.
  intros Hfile Hparse Hkeys.
  unfold load_data, try_except, mbind, M_bind, open_read, lift, json_load, write, read.
  rewrite Hfile, Hparse. simpl. by rewrite Hkeys.
Qed.

(** An exception of [json.load] other than [JSONDecodeError] leaves
    [load_data], and nothing is printed. *)
Lemma load_data_parser_raises σ content e :
  fs σ !! PRICE_JSON_PATH = Some content → json_loads content = Raise e →
  e ≠ JSONDecodeError → e ≠ FileNotFoundError →
  load_data σ = (Raise e, σ).
Proof.
  intros Hfile Hparse Hjson Hmissing.
  unfold load_data, try_except, mbind, M_bind, open_read, lift, json_load.
  rewrite Hfile, Hparse. by destruct e.
Qed.

(** C8: a price file that is malformed in that its bytes are no text in the
    encoding it is opened with makes [json.load] raise [UnicodeDecodeError];
    [load_data] catches [FileNotFoundError] and [json.JSONDecodeError] only,
    so the exception leaves it, nothing is printed, and the module, which
    calls [load_data] when it is imported, does not start. *)
Theorem load_data_undecodable_raises σ content :
  fs σ !! PRICE_JSON_PATH = Some content →
  json_loads content = Raise UnicodeDecodeError →
  load_data σ = (Raise UnicodeDecodeError, σ).
Proof. intros Hfile Hparse. by apply (load_data_parser_raises σ content). Qed.

(** C9: after [load_data] has read and parsed a price file whose top level
    is an object, the price table is that object and the list of available
    brands is the sorted list of its keys: it is sorted, it is a
    rearrangement of the keys, and so a brand is in the list exactly when it
    is a key of the table. *)
Theorem load_data_available_brands σ content table :
  fs σ !! PRICE_JSON_PATH = Some content →
  json_loads content = Ok (JObj table) →
  ∃ σ1,
    load_data σ = (Ok tt, σ1) ∧
    CAR_PRICES σ1 = JObj table ∧
    StronglySorted String.le (AVAILABLE_BRANDS σ1) ∧
    AVAILABLE_BRANDS σ1 ≡ₚ elements (dom table) ∧
    ∀ brand, brand ∈ AVAILABLE_BRANDS σ1 ↔ is_Some (table !! brand).
Proof.
  intros Hfile Hparse. eexists. split; [by apply (load_data_object σ content table)|].
  simpl. unfold sorted. repeat split.
  - apply StronglySorted_merge_sort; apply _.
  - apply merge_sort_Permutation.
  - rewrite merge_sort_Permutation, elem_of_elements. apply elem_of_dom.
  - rewrite merge_sort_Permutation, elem_of_elements. apply elem_of_dom.
Qed.

End Loading.

Lemma load_data_undecodable_raises_witness :
  @load_data (sample_external (λ _, Ok []))
    (initial_world {[ PRICE_JSON_PATH := undecodable_bytes ]})
  = (Raise UnicodeDecodeError, initial_world {[ PRICE_JSON_PATH := undecodable_bytes ]}).
Proof.
  apply (@load_data_undecodable_raises (sample_external (λ _, Ok []))
           (initial_world {[ PRICE_JSON_PATH := undecodable_bytes ]}) undecodable_bytes);
    reflexivity.
Defined.

Lemma load_data_available_brands_witness :
  ∃ σ1,
    @load_data (sample_external (λ _, Ok []))
      (initial_world {[ PRICE_JSON_PATH := "sample price file" ]}) = (Ok tt, σ1) ∧
    CAR_PRICES σ1 = JObj sample_brands ∧
    StronglySorted String.le (AVAILABLE_BRANDS σ1) ∧
    AVAILABLE_BRANDS σ1 ≡ₚ elements (dom sample_brands) ∧
    ∀ brand, brand ∈ AVAILABLE_BRANDS σ1 ↔ is_Some (sample_brands !! brand).
Proof.
  apply (@load_data_available_brands (sample_external (λ _, Ok []))
           (initial_world {[ PRICE_JSON_PATH := "sample price file" ]})
           "sample price file" sample_brands); reflexivity.
Defined.

(** On the sample file the brands come out in alphabetical order. *)
Example load_data_sample_brands :
  AVAILABLE_BRANDS
    (@load_data (sample_external (λ _, Ok []))
       (initial_world {[ PRICE_JSON_PATH := "sample price file" ]})).2
  = ["Audi"; "Honda"; "Toyota"].
Proof. vm_compute. reflexivity. Qed.

(** ** The request handler *)

Example photo_GIF_not_allowed : allowed_file "photo.GIF" = false.
Proof. reflexivity. Qed.

Example photo_JPG_allowed : allowed_file "photo.JPG" = true.
Proof. reflexivity. Qed.

(** The two images of a request are stored under different paths. *)
Lemma upload_paths_differ unique_id filename :
  os_path_join UPLOAD_FOLDER (original_name unique_id filename)
  ≠ os_path_join UPLOAD_FOLDER (detected_name unique_id filename).
Proof. cbv [os_path_join UPLOAD_FOLDER original_name detected_name String.append]. discriminate. Qed.

(** The URL of a stored image is served from the path it was stored at. *)
Lemma serve_static_upload name σ :
  serve_static (url_for_static ("uploads/" +:+ name)) σ
  = fs σ !! os_path_join UPLOAD_FOLDER name.
Proof. reflexivity. Qed.

Section Handler.

Context `{External}.

Lemma write_file_returns path content σ :
  write_fault path content = None →
  write_file path content σ = (Ok tt, set_fs (<[path := content]> (fs σ)) σ).
Proof. intros Hdisk. unfold write_file. by rewrite Hdisk. Qed.

Lemma write_file_raises path content e written σ :
  write_fault path content = Some (e, written) →
  write_file path content σ
  = (Raise e,
     match written with
     | Some part => set_fs (<[path := part]> (fs σ)) σ
     | None => σ
     end).
Proof. intros Hdisk. unfold write_file. rewrite Hdisk. by destruct written. Qed.

(** Writing a file leaves the other files as they are, whether the write
    returns or raises. *)
Lemma write_file_other path content other σ :
  other ≠ path → fs (write_file path content σ).2 !! other = fs σ !! other.
Proof.
  intros Hother. unfold write_file.
  destruct (write_fault path content) as [[e [written|]]|]; simpl;
    by rewrite ?lookup_insert_ne.
Qed.

Lemma copyfile_upload file unique_id filename σ :
  let original_path := os_path_join UPLOAD_FOLDER (original_name unique_id filename) in
  let detected_path := os_path_join UPLOAD_FOLDER (detected_name unique_id filename) in
  write_fault detected_path (stream file) = None →
  copyfile original_path detected_path
    (set_fs (<[original_path := stream file]> (fs σ)) σ)
  = (Ok tt,
     set_fs (<[detected_path := stream file]> (<[original_path := stream file]> (fs σ))) σ).
Proof.
  intros original_path detected_path Hdisk. unfold copyfile.
  cbn [fs set_fs]. rewrite lookup_insert_eq.
  pose proof (upload_paths_differ unique_id filename) as Hdiff.
  apply String.eqb_neq in Hdiff. fold original_path detected_path in Hdiff.
  rewrite Hdiff. by rewrite write_file_returns.
Qed.

(** C5: a POST request whose upload has a sanitized file name that does not
    end in [.png], [.jpg] or [.jpeg] (in any letter case) is rejected: the
    handler renders the upload form with an error message, the response has
    status 200, and the state, so also the upload directory, is as it was.
    When nothing else is wrong with the request the message is the one about
    the file type. *)
Theorem predict_damage_rejects_extension req unique_id σ file :
  method req = POST →
  files_image req = Ok (Some file) →
  allowed_file (secure_filename (filename file)) = false →
  ∃ message,
    let page := RenderPredict {| brands := AVAILABLE_BRANDS σ;
                                 prices := CAR_PRICES σ;
                                 error := Some message |} in
    predict_damage req unique_id σ = (Ok page, σ) ∧
    status_code page = 200 ∧
    (MODEL σ = true → truthy_file (Some file) = true →
     truthy_str (form_car_brand req) = true → truthy_str (form_car_model req) = true →
     message = "Invalid file type. Please upload a PNG, JPG, or JPEG image.").
Proof.
  intros Hpost Hfile Hext.
  unfold predict_damage, mbind, M_bind, read, lift. simpl. rewrite Hpost.
  destruct (MODEL σ); simpl;
    [|eexists; split; [reflexivity|split; [reflexivity|intros; simpl in *; congruence]]].
  rewrite Hfile.
  destruct (truthy_file (Some file)) eqn:Htruthy; simpl;
    [|eexists; split; [reflexivity|split; [reflexivity|intros; simpl in *; congruence]]].
  destruct (form_car_brand req) as [car_brand|]; simpl;
    [|eexists; split; [reflexivity|split; [reflexivity|intros; simpl in *; congruence]]].
  destruct (negb (String.eqb car_brand "")); simpl;
    [|eexists; split; [reflexivity|split; [reflexivity|intros; simpl in *; congruence]]].
  destruct (form_car_model req) as [car_model|]; simpl;
    [|eexists; split; [reflexivity|split; [reflexivity|intros; simpl in *; congruence]]].
  destruct (negb (String.eqb car_model "")); simpl;
    [|eexists; split; [reflexivity|split; [reflexivity|intros; simpl in *; congruence]]].
  simpl in Htruthy. apply negb_true_iff in Htruthy. rewrite Htruthy, Hext. simpl.
  eexists. repeat split; done.
Qed.

(** What the [try] block does, step by step: it stores the upload and,
    when that is done, runs the detector on the stored bytes and goes on by
    what the detector found. *)
Lemma analysis_save_raises file car_brand car_model original detected e written σ :
  write_fault (os_path_join UPLOAD_FOLDER original) (stream file) = Some (e, written) →
  analysis file car_brand car_model original detected σ
  = (Raise e,
     match written with
     | Some part => set_fs (<[os_path_join UPLOAD_FOLDER original := part]> (fs σ)) σ
     | None => σ
     end).
Proof.
  intros Hdisk. unfold analysis, mbind at 1, M_bind at 1, file_save.
  by rewrite (write_file_raises _ _ e written).
Qed.

Lemma analysis_saves_first file car_brand car_model original detected σ :
  write_fault (os_path_join UPLOAD_FOLDER original) (stream file) = None →
  analysis file car_brand car_model original detected σ
  = let original_path := os_path_join UPLOAD_FOLDER original in
    let detected_path := os_path_join UPLOAD_FOLDER detected in
    let σ1 := set_fs (<[original_path := stream file]> (fs σ)) σ in
    let estimate part_prices :=
      RenderEstimate {| original_image := url_for_static ("uploads/" +:+ original);
                        detected_image := url_for_static ("uploads/" +:+ detected);
                        part_prices := part_prices;
                        car_info := (car_brand, car_model) |} in
    let no_detections := (copyfile original_path detected_path;; mret (estimate [])) σ1 in
    match detect (stream file) with
    | Raise e => (Raise e, σ1)
    | Ok results =>
        match head results with
        | None => no_detections
        | Some result =>
            match boxes result with
            | [] => no_detections
            | _ :: _ =>
                (class_counts ← alloc (Counter (boxes result));
                 result_save result detected_path;;
                 part_prices ← calculate_prices car_brand car_model class_counts;
                 mret (estimate part_prices)) σ1
            end
        end
    end.
Proof.
  intros Hdisk.
  unfold analysis, mbind at 1 2, M_bind at 1 2, file_save, MODEL_call.
  rewrite write_file_returns by done.
  unfold mbind at 1, M_bind at 1, open_read, lift. simpl.
  rewrite lookup_insert_eq.
  destruct (detect (stream file)) as [results|e]; [|done].
  destruct (head results) as [result|]; [|done].
  by destruct (boxes result).
Qed.

(** Once saved, the upload is there in whatever state the [try] block ends
    or raises. *)
Lemma analysis_keeps_upload file car_brand car_model unique_id filename σ :
  write_fault (os_path_join UPLOAD_FOLDER (original_name unique_id filename)) (stream file)
  = None →
  fs (analysis file car_brand car_model
        (original_name unique_id filename) (detected_name unique_id filename) σ).2
    !! os_path_join UPLOAD_FOLDER (original_name unique_id filename)
  = Some (stream file).
Proof.
  intros Hdisk. rewrite analysis_saves_first by done. cbv zeta.
  pose proof (upload_paths_differ unique_id filename) as Hdiff.
  assert (∀ page : response,
            fs ((copyfile (os_path_join UPLOAD_FOLDER (original_name unique_id filename))
                   (os_path_join UPLOAD_FOLDER (detected_name unique_id filename));;
                 mret (M := M) page)
                  (set_fs (<[os_path_join UPLOAD_FOLDER (original_name unique_id filename)
                             := stream file]> (fs σ)) σ)).2
              !! os_path_join UPLOAD_FOLDER (original_name unique_id filename)
            = Some (stream file)) as Hcopy.
  { intros page. unfold mbind, M_bind, copyfile. cbn [fs set_fs]. rewrite lookup_insert_eq.
    apply String.eqb_neq in Hdiff as Hneq. rewrite Hneq.
    match goal with
    | |- context [write_file ?p ?c ?s] =>
        pose proof (write_file_other p c
                      (os_path_join UPLOAD_FOLDER (original_name unique_id filename)) s Hdiff)
          as Hother;
        destruct (write_file p c s) as [[[]|e] σ2]
    end; simpl in *; rewrite Hother; apply lookup_insert_eq. }
  destruct (detect (stream file)) as [results|e]; [|apply lookup_insert_eq].
  destruct (head results) as [result|]; [|apply Hcopy].
  destruct (boxes result) as [|class_id class_ids]; [apply Hcopy|].
  unfold mbind, M_bind, alloc, result_save. simpl.
  match goal with
  | |- context [write_file ?p ?c ?s] =>
      pose proof (write_file_other p c
                    (os_path_join UPLOAD_FOLDER (original_name unique_id filename)) s Hdiff)
        as Hother;
      destruct (write_file p c s) as [[[]|e] σ2]
  end; simpl in *; [|rewrite Hother; apply lookup_insert_eq].
  match goal with
  | |- context [calculate_prices ?b ?m ?l ?s] =>
      destruct (only_prints_calculate_prices b m l s) as [out Hout];
      destruct (calculate_prices b m l s) as [[part_prices|e] σ4]
  end; simpl in *; subst σ4; simpl; rewrite Hother; apply lookup_insert_eq.
Qed.

Lemma analysis_no_detections file car_brand car_model unique_id filename results σ :
  write_fault (os_path_join UPLOAD_FOLDER (original_name unique_id filename)) (stream file)
  = None →
  write_fault (os_path_join UPLOAD_FOLDER (detected_name unique_id filename)) (stream file)
  = None →
  detect (stream file) = Ok results →
  zero_detections results →
  analysis file car_brand car_model
    (original_name unique_id filename) (detected_name unique_id filename) σ
  = (Ok (RenderEstimate {|
           original_image := url_for_static ("uploads/" +:+ original_name unique_id filename);
           detected_image := url_for_static ("uploads/" +:+ detected_name unique_id filename);
           part_prices := [];
           car_info := (car_brand, car_model) |}),
     set_fs (<[os_path_join UPLOAD_FOLDER (detected_name unique_id filename) := stream file]>
               (<[os_path_join UPLOAD_FOLDER (original_name unique_id filename) := stream file]>
                  (fs σ))) σ).
Proof.
  intros Hsave Hcopy Hdetect Hzero. rewrite analysis_saves_first by done.
  cbv zeta. rewrite Hdetect.
  unfold zero_detections in Hzero.
  destruct (head results) as [result|]; [rewrite Hzero|];
    unfold mbind, M_bind; by rewrite copyfile_upload.
Qed.

Section AcceptedRequest.

Variables (σ : world) (req : request) (unique_id : string).
Variables (file : FileStorage) (car_brand car_model : string).
Hypothesis Haccepted : accepted σ req file car_brand car_model.

Let original := original_name unique_id (secure_filename (filename file)).
Let detected := detected_name unique_id (secure_filename (filename file)).

(** For an accepted request the handler is its [try] block under its
    [except] clause. *)
Lemma predict_damage_accepted :
  predict_damage req unique_id σ
  = match analysis file car_brand car_model original detected σ with
    | (Ok page, σ') => (Ok page, σ')
    | (Raise e, σ') =>
        (Ok (RenderPredict {|
               brands := AVAILABLE_BRANDS σ;
               prices := CAR_PRICES σ;
               error := Some ("An unexpected error occurred during analysis: "
                              +:+ str_of_exn e) |}),
         set_stdout (stdout σ' ++ ["An error occurred during prediction: " +:+ str_of_exn e]) σ')
    end.
Proof.
  destruct Haccepted as (Hpost & Hmodel & Hfile & Hbrand & Hcar & Hname & Hb & Hm & Hext).
  unfold predict_damage, mbind at 1 2 3 4, M_bind at 1 2 3 4, read, lift. simpl.
  rewrite Hpost, Hmodel, Hfile, Hbrand, Hcar. simpl.
  apply String.eqb_neq in Hname, Hb, Hm. rewrite Hname, Hb, Hm, Hext. simpl.
  unfold try_except. fold original detected.
  by destruct (analysis _ _ _ _ _ σ) as [[page|e] σ'].
Qed.

(** C6: for a request that passed validation, an exception raised anywhere
    in the [try] block (saving the file, detection, saving the annotated
    image or copying, pricing) is caught by the one [except] clause: the
    handler returns the upload form with the generic message, which carries
    the text of the exception, and prints one line.  Nothing is undone: the
    files are those of the state the block had reached when the exception
    was raised, and when the block's first step had saved the original
    upload, it is still stored. *)
Theorem predict_damage_failure_boundary e σ' :
  analysis file car_brand car_model original detected σ = (Raise e, σ') →
  let final :=
    set_stdout (stdout σ' ++ ["An error occurred during prediction: " +:+ str_of_exn e]) σ' in
  predict_damage req unique_id σ
  = (Ok (RenderPredict {|
           brands := AVAILABLE_BRANDS σ;
           prices := CAR_PRICES σ;
           error := Some ("An unexpected error occurred during analysis: "
                          +:+ str_of_exn e) |}),
     final) ∧
  fs final = fs σ' ∧
  (write_fault (os_path_join UPLOAD_FOLDER original) (stream file) = None →
   fs final !! os_path_join UPLOAD_FOLDER original = Some (stream file)).
Proof.
  intros Hraise final.
  rewrite predict_damage_accepted, Hraise.
  repeat split. intros Hsaved.
  pose proof (analysis_keeps_upload file car_brand car_model unique_id
                (secure_filename (filename file)) σ Hsaved) as Hkept.
  fold original detected in Hkept. by rewrite Hraise in Hkept.
Qed.

(** C7: for a request that passed validation, whose upload is stored and
    whose detection run yields no detections, the handler copies the upload
    byte for byte to the path of the annotated image (the operating system
    permitting the two writes) and renders the estimate page with an empty
    breakdown; the two image URLs of the page are served the bytes of the
    upload. *)
Theorem predict_damage_no_detections results :
  write_fault (os_path_join UPLOAD_FOLDER original) (stream file) = None →
  write_fault (os_path_join UPLOAD_FOLDER detected) (stream file) = None →
  detect (stream file) = Ok results →
  zero_detections results →
  let final :=
    set_fs (<[os_path_join UPLOAD_FOLDER detected := stream file]>
              (<[os_path_join UPLOAD_FOLDER original := stream file]> (fs σ))) σ in
  let page := {| original_image := url_for_static ("uploads/" +:+ original);
                 detected_image := url_for_static ("uploads/" +:+ detected);
                 part_prices := [];
                 car_info := (car_brand, car_model) |} in
  predict_damage req unique_id σ = (Ok (RenderEstimate page), final) ∧
  serve_static (original_image page) final = Some (stream file) ∧
  serve_static (detected_image page) final = Some (stream file).
Proof.
  intros Hsave Hcopy Hdetect Hzero final page.
  pose proof (upload_paths_differ unique_id (secure_filename (filename file))) as Hdiff.
  fold original detected in Hdiff.
  split; [|split].
  - rewrite predict_damage_accepted. unfold original, detected.
    by rewrite (analysis_no_detections _ _ _ _ _ _ _ Hsave Hcopy Hdetect Hzero).
  - subst page. cbn [original_image]. rewrite serve_static_upload. subst final. simpl.
    rewrite lookup_insert_ne by done. apply lookup_insert_eq.
  - subst page. cbn [detected_image]. rewrite serve_static_upload. subst final. simpl.
    apply lookup_insert_eq.
Qed.

End AcceptedRequest.

End Handler.

(** *** On sample requests *)

Lemma sample_request_accepted disk detector :
  @accepted (sample_external_on disk detector) (sample_world []) (sample_request "car.jpg")
    (sample_upload "car.jpg") "Audi" "A4".
Proof. repeat split; done. Qed.

(** An upload named [photo.GIF]. *)
Lemma predict_damage_rejects_extension_witness :
  ∃ message,
    let page := RenderPredict {| brands := ["Audi"];
                                 prices := JObj sample_table;
                                 error := Some message |} in
    @predict_damage (sample_external (λ _, Ok [])) (sample_request "photo.GIF") "00c0ffee"
      (sample_world [])
    = (Ok page, sample_world []) ∧
    status_code page = 200 ∧
    (true = true → true = true → true = true → true = true →
     message = "Invalid file type. Please upload a PNG, JPG, or JPEG image.").
Proof.
  apply (@predict_damage_rejects_extension (sample_external (λ _, Ok []))
           (sample_request "photo.GIF") "00c0ffee" (sample_world [])
           (sample_upload "photo.GIF"));
    reflexivity.
Defined.

(** Three requests that fail in the [try] block.  On a disk that takes no
    file, saving the upload raises: the form comes back with the generic
    message and nothing is stored.  With a detector that raises, the upload
    stored before the detector ran is still on disk.  With a box whose class
    is [nan], pricing raises, after the upload and the annotated image were
    stored. *)
Lemma predict_damage_failure_boundary_witness :
  let path := "static/uploads/original_00c0ffee_car.jpg" in
  let form := RenderPredict {|
                brands := ["Audi"];
                prices := JObj sample_table;
                error := Some "An unexpected error occurred during analysis: failure" |} in
  let line := "An error occurred during prediction: failure" in
  (let E := sample_external_on full_disk (λ _, Ok []) in
   let final := set_stdout [line] (sample_world []) in
   @predict_damage E (sample_request "car.jpg") "00c0ffee" (sample_world []) = (Ok form, final) ∧
   fs final = fs (sample_world []) ∧
   (full_disk path "image bytes" = None → fs final !! path = Some "image bytes")) ∧
  (let E := sample_external (λ _, Raise (OtherError "RuntimeError")) in
   let stored := set_fs {[ path := "image bytes" ]} (sample_world []) in
   let final := set_stdout [line] stored in
   @predict_damage E (sample_request "car.jpg") "00c0ffee" (sample_world []) = (Ok form, final) ∧
   fs final = fs stored ∧
   (@write_fault E path "image bytes" = None → fs final !! path = Some "image bytes")) ∧
  (let E := sample_external
              (λ _, Ok [ {| boxes := [S754_nan]; plot := "annotated bytes" |} ]) in
   let reached := (@analysis E (sample_upload "car.jpg") "Audi" "A4"
                     "original_00c0ffee_car.jpg" "detected_00c0ffee_car.jpg"
                     (sample_world [])).2 in
   let final := set_stdout (stdout reached ++ [line]) reached in
   @predict_damage E (sample_request "car.jpg") "00c0ffee" (sample_world []) = (Ok form, final) ∧
   fs final = fs reached ∧
   (@write_fault E path "image bytes" = None → fs final !! path = Some "image bytes")).
Proof.
  intros path form line. split; [|split].
  - apply (@predict_damage_failure_boundary
             (sample_external_on full_disk (λ _, Ok []))
             (sample_world []) (sample_request "car.jpg") "00c0ffee"
             (sample_upload "car.jpg") "Audi" "A4"
             (sample_request_accepted _ _) OSError (sample_world [])).
    reflexivity.
  - apply (@predict_damage_failure_boundary
             (sample_external (λ _, Raise (OtherError "RuntimeError")))
             (sample_world []) (sample_request "car.jpg") "00c0ffee"
             (sample_upload "car.jpg") "Audi" "A4"
             (sample_request_accepted _ _) (OtherError "RuntimeError")
             (set_fs {[ path := "image bytes" ]} (sample_world []))).
    reflexivity.
  - apply (@predict_damage_failure_boundary
             (sample_external (λ _, Ok [ {| boxes := [S754_nan]; plot := "annotated bytes" |} ]))
             (sample_world []) (sample_request "car.jpg") "00c0ffee"
             (sample_upload "car.jpg") "Audi" "A4"
             (sample_request_accepted _ _) ValueError).
    reflexivity.
Defined.

(** A detector that finds nothing: one result without boxes. *)
Lemma predict_damage_no_detections_witness :
  let final :=
    set_fs {[ "static/uploads/detected_00c0ffee_car.jpg" := "image bytes";
              "static/uploads/original_00c0ffee_car.jpg" := "image bytes" ]}
      (sample_world []) in
  let page := {| original_image := "/static/uploads/original_00c0ffee_car.jpg";
                 detected_image := "/static/uploads/detected_00c0ffee_car.jpg";
                 part_prices := [];
                 car_info := ("Audi", "A4") |} in
  @predict_damage (sample_external (λ _, Ok [ {| boxes := []; plot := "annotated bytes" |} ]))
    (sample_request "car.jpg") "00c0ffee" (sample_world [])
  = (Ok (RenderEstimate page), final) ∧
  serve_static (original_image page) final = Some "image bytes" ∧
  serve_static (detected_image page) final = Some "image bytes".
Proof.
  apply (@predict_damage_no_detections
           (sample_external (λ _, Ok [ {| boxes := []; plot := "annotated bytes" |} ]))
           (sample_world []) (sample_request "car.jpg") "00c0ffee"
           (sample_upload "car.jpg") "Audi" "A4"
           (sample_request_accepted _ _)
           [ {| boxes := []; plot := "annotated bytes" |} ]);
    reflexivity.
Defined.

(** With detections the same request is priced: two boxes of class 0.0 and
    one of class 5.0 on the sample table. *)
Example predict_damage_with_detections :
  (@predict_damage
     (sample_external (λ _, Ok [ {| boxes := [S754_zero false; S754_finite false 5 0;
                                              S754_zero false];
                                    plot := "annotated bytes" |} ]))
     (sample_request "car.jpg") "00c0ffee" (sample_world [])).1
  = Ok (RenderEstimate {|
          original_image := "/static/uploads/original_00c0ffee_car.jpg";
          detected_image := "/static/uploads/detected_00c0ffee_car.jpg";
          part_prices := [("Bonnet", Entry 2 (JInt 100) (JInt 200));
                          ("Light", Entry 1 (JInt 50) (JInt 50))];
          car_info := ("Audi", "A4") |}).
Proof. vm_compute. reflexivity. Qed.

(** * Further properties *)

(** ** Which identifiers resolve *)

Lemma list_getitem_raises_IndexError {A} (l : list A) i e :
  list_getitem l i = Raise e → e = IndexError.
Proof.
  unfold list_getitem. destruct (_ && _); [|by intros [= <-]].
  destruct (l !! _); [discriminate | by intros [= <-]].
Qed.

(** Once [int()] has given an integer, the lookup returns. *)
Lemma get_part_name_after_int class_id i :
  py_int class_id = Ok i → lookup_returns class_id.
Proof.
  intros Hint. unfold lookup_returns, get_part_name_from_id. rewrite Hint. simpl.
  destruct (list_getitem class_names i) as [name|e] eqn:Hget; simpl; [by eexists|].
  apply list_getitem_raises_IndexError in Hget as ->. by eexists.
Qed.

(** On an integer the lookup never raises: the integers [-7 .. 6] resolve,
    the negative ones counting from the end of the table, and every other
    integer gives [None]. *)
Theorem get_part_name_from_id_int i :
  get_part_name_from_id (VInt i)
  = Ok (if bool_decide (-7 <= i < 7) then class_names !! Z.to_nat (i `mod` 7) else None).
Proof.
  case_bool_decide as Hrange.
  - assert (i = -7 ∨ i = -6 ∨ i = -5 ∨ i = -4 ∨ i = -3 ∨ i = -2 ∨ i = -1 ∨
            i = 0 ∨ i = 1 ∨ i = 2 ∨ i = 3 ∨ i = 4 ∨ i = 5 ∨ i = 6) as Hcases by lia.
    repeat (destruct Hcases as [->|Hcases]; [reflexivity|]). by subst i.
  - apply get_part_name_int_out_of_range. lia.
Qed.

(** For [None], a boolean, an integer or a finite float the lookup returns:
    a name or [None], never an exception. *)
Theorem get_part_name_from_id_plain class_id :
  plain_id class_id = true → lookup_returns class_id.
Proof.
  destruct class_id as [|b|z|f|s]; simpl; intros Hplain.
  - by exists None.
  - by apply (get_part_name_after_int _ (if b then 1 else 0)).
  - by apply (get_part_name_after_int _ z).
  - destruct f as [sign|sign| |sign m e]; try discriminate.
    + by apply (get_part_name_after_int _ 0).
    + by eapply get_part_name_after_int.
  - discriminate.
Qed.

Lemma get_part_name_from_id_plain_witness :
  lookup_returns (VFloat (S754_finite false 5 0)).
Proof. apply get_part_name_from_id_plain. reflexivity. Defined.

(** The exceptions that leave the lookup, and for which identifiers, strings
    with characters beyond ASCII apart: [ValueError] for a string that [int]
    does not convert (it is no integer literal, or it has more digits than
    the limit of 4300) and for [nan], [OverflowError] for an infinity;
    nothing else ever leaves it. *)
Theorem get_part_name_from_id_raises_iff class_id e :
  ascii_text class_id →
  (get_part_name_from_id class_id = Raise e ↔
   (e = ValueError ∧
    ((∃ s, class_id = VStr s ∧ int_of_str s = None) ∨ class_id = VFloat S754_nan)) ∨
   (e = OverflowError ∧ ∃ sign, class_id = VFloat (S754_infinity sign))).
Proof.
  intros _. split.
  - intros Hraise.
    destruct (py_int class_id) as [i|e'] eqn:Hint.
    { destruct (get_part_name_after_int _ _ Hint) as [r Hr]. congruence. }
    destruct class_id as [|b|z|f|s]; simpl in Hint; try discriminate.
    + destruct f as [sign|sign| |sign m ex]; try discriminate; cbv in Hraise.
      * injection Hraise as <-. right. split; [done | by exists sign].
      * injection Hraise as <-. left. split; [done | by right].
    + destruct (int_of_str s) eqn:Hparse; [discriminate|].
      rewrite (get_part_name_non_numeric_str _ Hparse) in Hraise.
      injection Hraise as <-. left. split; [done|]. left. by exists s.
  - intros [[-> [(s & -> & Hparse)| ->]]|[-> [sign ->]]].
    + by apply get_part_name_non_numeric_str.
    + reflexivity.
    + reflexivity.
Qed.

(** A string of 4300 digits is converted, one of 4301 is not. *)
Example int_of_str_limit :
  is_Some (int_of_str (str_repeat "1" 4300)) ∧ int_of_str (str_repeat "1" 4301) = None.
Proof. split; vm_compute; [eexists|]; reflexivity. Qed.

(** A string that is no literal, and a literal of 4301 digits. *)
Lemma get_part_name_from_id_raises_iff_witness :
  (get_part_name_from_id (VStr "12a") = Raise ValueError ↔
   (ValueError = ValueError ∧
    ((∃ s, VStr "12a" = VStr s ∧ int_of_str s = None) ∨ VStr "12a" = VFloat S754_nan)) ∨
   (ValueError = OverflowError ∧ ∃ sign, VStr "12a" = VFloat (S754_infinity sign))) ∧
  (get_part_name_from_id (VStr (str_repeat "1" 4301)) = Raise ValueError ↔
   (ValueError = ValueError ∧
    ((∃ s, VStr (str_repeat "1" 4301) = VStr s ∧ int_of_str s = None)
     ∨ VStr (str_repeat "1" 4301) = VFloat S754_nan)) ∨
   (ValueError = OverflowError
    ∧ ∃ sign, VStr (str_repeat "1" 4301) = VFloat (S754_infinity sign))).
Proof.
  split.
  - apply (get_part_name_from_id_raises_iff (VStr "12a") ValueError). reflexivity.
  - apply (get_part_name_from_id_raises_iff (VStr (str_repeat "1" 4301)) ValueError).
    vm_compute. reflexivity.
Defined.

(** ** The shape of every breakdown *)

Lemma dict_set_keys_elem_of {V} k (v : V) d x :
  x ∈ (dict_set k v d).*1 ↔ x = k ∨ x ∈ d.*1.
Proof.
  induction d as [|[k' v'] d IH]; simpl.
  - rewrite list_elem_of_singleton, elem_of_nil. tauto.
  - destruct (String.eqb k k') eqn:Heq; simpl.
    + apply String.eqb_eq in Heq as <-. rewrite !elem_of_cons. tauto.
    + rewrite !elem_of_cons, IH. tauto.
Qed.

Lemma dict_set_NoDup {V} k (v : V) d : NoDup d.*1 → NoDup (dict_set k v d).*1.
Proof.
  induction d as [|[k' v'] d IH]; simpl; intros Hd.
  - apply NoDup_singleton.
  - apply NoDup_cons in Hd as [Hnotin Hd].
    destruct (String.eqb k k') eqn:Heq; simpl.
    + apply String.eqb_eq in Heq as <-. by apply NoDup_cons.
    + apply String.eqb_neq in Heq. apply NoDup_cons. split; [|by apply IH].
      rewrite dict_set_keys_elem_of. intros [->|Hin]; done.
Qed.

Lemma price_step_NoDup car_model model_prices acc item σ :
  NoDup acc.*1 →
  returns_with (λ prices, NoDup prices.*1) (price_step car_model model_prices acc item σ).
Proof.
  intros Hacc. destruct item as [class_id n]. unfold price_step.
  unfold returns_with, mbind, M_bind, lift, print, write. simpl.
  destruct (get_part_name_from_id class_id) as [part_name|e]; simpl; [|done].
  destruct (truthy_name part_name) as [name|]; simpl; [|done].
  destruct (py_contains name model_prices) as [[|]|e]; simpl; [|done|done].
  destruct (py_getitem model_prices name) as [p|e]; simpl; [|done].
  destruct (py_mul p n) as [t|e]; simpl; [|done].
  by apply dict_set_NoDup.
Qed.

Lemma calculate_prices_NoDup car_brand car_model class_counts σ :
  returns_with (λ prices, NoDup prices.*1)
    (calculate_prices car_brand car_model class_counts σ).
Proof.
  unfold calculate_prices.
  eapply returns_with_bind; [apply returns_with_True|]. intros table σ1 _.
  eapply returns_with_bind; [apply returns_with_True|]. intros [|] σ2 _.
  - eapply returns_with_bind; [apply returns_with_True|]. intros _ σ3 _.
    unfold returns_with. simpl. constructor.
  - eapply returns_with_bind; [apply returns_with_True|]. intros model_prices σ3 _.
    eapply returns_with_bind; [apply returns_with_True|]. intros items σ4 _.
    apply returns_with_for_each.
    + intros acc x σ5 Hacc. by apply price_step_NoDup.
    + simpl. constructor.
Qed.

(** Whatever its arguments and the price table, a breakdown that
    [calculate_prices] returns has no part name twice, and so at most seven
    entries. *)
Theorem calculate_prices_at_most_seven car_brand car_model class_counts σ :
  match (calculate_prices car_brand car_model class_counts σ).1 with
  | Ok prices => NoDup prices.*1 ∧ (length prices ≤ 7)%nat
  | Raise _ => True
  end.
Proof.
  pose proof (calculate_prices_NoDup car_brand car_model class_counts σ) as Hnodup.
  pose proof (calculate_prices_keys car_brand car_model class_counts σ) as Hkeys.
  unfold returns_with, keys_are_part_names in *.
  destruct (calculate_prices car_brand car_model class_counts σ) as [[prices|e] σ'];
    simpl in *; [|done].
  split; [done|].
  rewrite <- (length_fmap fst prices).
  change 7%nat with (length class_names).
  apply submseteq_length, NoDup_submseteq; [done|].
  intros name Hin. by eapply Forall_forall in Hkeys.
Qed.

(** ** The loop in general *)

Lemma for_each_app {A B} (items1 items2 : list A) (acc : B) (body : B → A → M B) σ :
  for_each (items1 ++ items2) acc body σ
  = (acc' ← for_each items1 acc body; for_each items2 acc' body) σ.
Proof.
  revert acc σ. induction items1 as [|x items1 IH]; intros acc σ; simpl.
  - done.
  - unfold mbind, M_bind in *. destruct (body acc x σ) as [[acc'|e] σ']; [|done].
    apply IH.
Qed.

Lemma list_to_map_dict_set {V} k (v : V) d :
  list_to_map (dict_set k v d) =@{gmap string V} <[k := v]> (list_to_map d).
Proof.
  induction d as [|[k' v'] d IH]; simpl; [done|].
  destruct (String.eqb k k') eqn:Heq; simpl.
  - apply String.eqb_eq in Heq as <-. by rewrite insert_insert_eq.
  - apply String.eqb_neq in Heq. rewrite IH. by apply insert_insert_ne.
Qed.

Lemma list_to_map_dict_update {V} (d items : list (string * V)) :
  list_to_map (dict_update d items)
  =@{gmap string V} list_to_map (reverse items) ∪ list_to_map d.
Proof.
  revert d. induction items as [|[k v] items IH]; intros d.
  - simpl. by rewrite (left_id_L ∅ (∪)).
  - unfold dict_update in *. simpl. rewrite IH, list_to_map_dict_set.
    rewrite reverse_cons, list_to_map_app. simpl.
    rewrite insert_empty, <- (assoc_L (∪)). f_equal.
    by rewrite <- insert_union_singleton_l.
Qed.

Lemma dict_set_Forall {V} (P : string * V → Prop) k v d :
  P (k, v) → Forall P d → Forall P (dict_set k v d).
Proof.
  intros Hkv. induction d as [|[k' v'] d IH]; simpl; intros Hd.
  - by constructor.
  - inversion_clear Hd. destruct (String.eqb k k'); constructor; auto.
Qed.

Section PricedCar.

Variables (σ : world) (table : gmap string json).
Hypothesis Htable : CAR_PRICES σ = JObj table.

(** A brand whose entry in the table is [null], a boolean or a number makes
    [calculate_prices] raise [TypeError], at [car_model not in
    CAR_PRICES[car_brand]]; nothing is printed. *)
Theorem calculate_prices_scalar_brand_entry car_brand car_model class_counts brand_entry :
  table !! car_brand = Some brand_entry →
  is_scalar brand_entry = true →
  calculate_prices car_brand car_model class_counts σ = (Raise TypeError, σ).
Proof.
  intros Hbrand Hscalar.
  unfold calculate_prices, mbind, M_bind, read, lift, price_data_missing. simpl.
  rewrite Htable. simpl. rewrite Hbrand, bool_decide_true by done. simpl.
  by destruct brand_entry.
Qed.

Variables (car_brand car_model : string) (models model_prices : gmap string json).
Hypothesis Hbrand : table !! car_brand = Some (JObj models).
Hypothesis Hmodel : models !! car_model = Some (JObj model_prices).

Variables (class_counts : nat) (items : list (value * Z)).
Hypothesis Hitems : heap σ !! class_counts = Some items.

Lemma calculate_prices_is_loop :
  calculate_prices car_brand car_model class_counts σ
  = for_each items [] (price_step car_model (JObj model_prices)) σ.
Proof.
  unfold calculate_prices, mbind, M_bind, read, lift, dict_items. simpl.
  rewrite Htable, (price_data_missing_found _ _ _ _ _ Hbrand Hmodel). simpl.
  rewrite Hbrand. simpl. by rewrite Hmodel, Hitems.
Qed.

(** An identifier for which the lookup raises ends the loop, when the loop
    gets to it: if the lookup returns for the identifiers before it and
    their products with the prices can be computed, the exception leaves
    [calculate_prices], no breakdown is returned, and the warnings of the
    items before it have been printed. *)
Theorem calculate_prices_lookup_raises before class_id n after e :
  items = before ++ (class_id, n) :: after →
  Forall (λ item, lookup_returns item.1) before →
  Forall (product_defined model_prices) before →
  get_part_name_from_id class_id = Raise e →
  calculate_prices car_brand car_model class_counts σ
  = (Raise e,
     set_stdout (stdout σ ++ omap (price_warning car_model model_prices) before) σ).
Proof.
  intros Hsplit Hbefore Hdefined Hraise.
  rewrite calculate_prices_is_loop, Hsplit, for_each_app.
  unfold mbind at 1, M_bind at 1. rewrite for_each_price_step_numbers by done.
  cbn [for_each]. unfold mbind, M_bind. by rewrite (price_step_raises _ _ _ _ _ _ e).
Qed.

(** From here on the unit prices are integers. *)
Hypothesis Hint : integer_prices model_prices.

(** When two class identifiers resolve to the same priced part, the later
    one wins: for identifiers the lookup returns for, the breakdown, read as
    a map from part names to entries, is the map in which every part has the
    entry of the last item that resolves to it. *)
Theorem calculate_prices_last_wins :
  Forall (λ item, lookup_returns item.1) items →
  ∃ prices,
    calculate_prices car_brand car_model class_counts σ
    = (Ok prices,
       set_stdout (stdout σ ++ omap (price_warning car_model model_prices) items) σ) ∧
    list_to_map prices
    =@{gmap string entry} list_to_map (reverse (omap (priced_entry model_prices) items)).
Proof.
  intros Hreturns. eexists. split.
  - rewrite calculate_prices_is_loop. by apply for_each_price_step.
  - rewrite list_to_map_dict_update. simpl. by rewrite (right_id_L ∅ (∪)).
Qed.

Lemma price_step_matches acc item σ0 :
  Forall (entry_matches model_prices) acc →
  returns_with (Forall (entry_matches model_prices))
    (price_step car_model (JObj model_prices) acc item σ0).
Proof.
  intros Hacc. destruct item as [class_id n]. unfold price_step.
  unfold returns_with, mbind, M_bind, lift, print, write. simpl.
  destruct (get_part_name_from_id class_id) as [part_name|e]; simpl; [|done].
  destruct (truthy_name part_name) as [name|]; simpl; [|done].
  case_bool_decide as Hpriced; simpl; [|done].
  destruct (model_prices !! name) as [p|] eqn:Hprice; simpl; [|by destruct Hpriced].
  destruct (Hint _ _ Hprice) as [z ->]. simpl.
  apply dict_set_Forall; [|done]. by exists z.
Qed.

(** Whatever the class counts, every entry of a returned breakdown agrees
    with the price map: its unit price is the price of its part and its
    total is the unit price times its count. *)
Theorem calculate_prices_entries_match :
  match (calculate_prices car_brand car_model class_counts σ).1 with
  | Ok prices => Forall (entry_matches model_prices) prices
  | Raise _ => True
  end.
Proof.
  rewrite calculate_prices_is_loop.
  apply (returns_with_for_each (Forall (entry_matches model_prices))).
  - intros acc item σ0 Hacc. by apply price_step_matches.
  - constructor.
Qed.

End PricedCar.

Lemma calculate_prices_scalar_brand_entry_witness :
  calculate_prices "Audi" "A4" 0%nat
    (World (JObj {[ "Audi" := JInt 5 ]}) ["Audi"] true [] ∅ ∅)
  = (Raise TypeError, World (JObj {[ "Audi" := JInt 5 ]}) ["Audi"] true [] ∅ ∅).
Proof.
  apply (calculate_prices_scalar_brand_entry
           (World (JObj {[ "Audi" := JInt 5 ]}) ["Audi"] true [] ∅ ∅)
           {[ "Audi" := JInt 5 ]} eq_refl
           "Audi" "A4" 0%nat (JInt 5)); reflexivity.
Defined.

Lemma calculate_prices_last_wins_witness :
  ∃ prices,
    calculate_prices "Audi" "A4" 0%nat (sample_world [(VInt 0, 2); (VInt 1, 4); (VInt (-7), 1)])
    = (Ok prices,
       set_stdout ["WARNING: Part 'Bumper' detected but no price found for A4."]
         (sample_world [(VInt 0, 2); (VInt 1, 4); (VInt (-7), 1)])) ∧
    list_to_map prices
    =@{gmap string entry} {[ "Bonnet" := Entry 1 (JInt 100) (JInt 100) ]}.
Proof.
  destruct (calculate_prices_last_wins
              (sample_world [(VInt 0, 2); (VInt 1, 4); (VInt (-7), 1)])
              sample_table eq_refl "Audi" "A4" {[ "A4" := JObj sample_prices ]}
              sample_prices eq_refl eq_refl 0%nat
              [(VInt 0, 2); (VInt 1, 4); (VInt (-7), 1)] eq_refl sample_prices_integer)
    as (prices & Hprices & Hmap).
  - repeat constructor; eexists; reflexivity.
  - exists prices. split; [exact Hprices|]. rewrite Hmap. apply map_eq. intros name.
    reflexivity.
Defined.

Lemma calculate_prices_entries_match_witness :
  match (calculate_prices "Audi" "A4" 0%nat
           (sample_world [(VInt 0, 2); (VInt (-7), 1); (VInt 5, 3)])).1 with
  | Ok prices => Forall (entry_matches sample_prices) prices
  | Raise _ => True
  end.
Proof.
  apply (calculate_prices_entries_match
           (sample_world [(VInt 0, 2); (VInt (-7), 1); (VInt 5, 3)])
           sample_table eq_refl "Audi" "A4" {[ "A4" := JObj sample_prices ]}
           sample_prices eq_refl eq_refl 0%nat
           [(VInt 0, 2); (VInt (-7), 1); (VInt 5, 3)] eq_refl sample_prices_integer).
Defined.

(** A float price before the identifier that raises. *)
Lemma calculate_prices_lookup_raises_witness :
  calculate_prices "Fiat" "Uno" 0%nat
    (float_world [(VInt 1, 1); (VInt 0, 3); (VStr "abc", 1); (VInt 5, 2)])
  = (Raise ValueError,
     set_stdout ["WARNING: Part 'Bumper' detected but no price found for Uno."]
       (float_world [(VInt 1, 1); (VInt 0, 3); (VStr "abc", 1); (VInt 5, 2)])).
Proof.
  apply (calculate_prices_lookup_raises
           (float_world [(VInt 1, 1); (VInt 0, 3); (VStr "abc", 1); (VInt 5, 2)])
           float_table eq_refl "Fiat" "Uno" {[ "Uno" := JObj float_prices ]}
           float_prices eq_refl eq_refl 0%nat
           [(VInt 1, 1); (VInt 0, 3); (VStr "abc", 1); (VInt 5, 2)] eq_refl
           [(VInt 1, 1); (VInt 0, 3)] (VStr "abc") 1 [(VInt 5, 2)] ValueError).
  - reflexivity.
  - repeat constructor; eexists; reflexivity.
  - repeat apply Forall_cons_2; [| |apply Forall_nil_2];
      vm_compute; try exact I; eexists; reflexivity.
  - reflexivity.
Defined.

(** ** Start-up *)

Section Startup.

Context `{External}.

(** When the price file is missing, or [json.load] raises
    [json.JSONDecodeError] on it, [load_data] returns normally having
    printed one error line, the price table is still empty, and from then
    on, as long as the table is what [load_data] left, every call of
    [calculate_prices] returns the empty breakdown and raises nothing. *)
Theorem load_data_soft_failure σ :
  CAR_PRICES σ = JObj ∅ →
  (fs σ !! PRICE_JSON_PATH = None ∨
   ∃ content, fs σ !! PRICE_JSON_PATH = Some content
              ∧ json_loads content = Raise JSONDecodeError) →
  ∃ line σ1,
    load_data σ = (Ok tt, σ1) ∧
    line ∈ [price_file_not_found; price_file_malformed] ∧
    σ1 = set_stdout (stdout σ ++ [line]) σ ∧
    CAR_PRICES σ1 = JObj ∅ ∧
    ∀ σ2 car_brand car_model class_counts,
      CAR_PRICES σ2 = CAR_PRICES σ1 →
      (calculate_prices car_brand car_model class_counts σ2).1 = Ok [].
Proof.
  intros Hempty Hfile.
  assert (∃ line, line ∈ [price_file_not_found; price_file_malformed] ∧
                  load_data σ = (Ok tt, set_stdout (stdout σ ++ [line]) σ))
    as (line & Hline & Hload).
  { destruct Hfile as [Hmissing|(content & Hcontent & Hparse)].
    - exists price_file_not_found. split; [set_solver|]. by apply load_data_missing_file.
    - exists price_file_malformed. split; [set_solver|]. by eapply load_data_malformed_file. }
  exists line, (set_stdout (stdout σ ++ [line]) σ).
  repeat split; [done..|].
  intros σ2 car_brand car_model class_counts Hsame.
  apply calculate_prices_empty_table. by rewrite Hsame.
Qed.

(** A price file that is JSON but whose top level is no object: [load_data]
    lets [AttributeError] through (no [except] clause names it), having
    already assigned the parsed value to the price table; it prints nothing
    and leaves the list of brands as it was. *)
Theorem load_data_wrong_shape σ content j :
  fs σ !! PRICE_JSON_PATH = Some content →
  json_loads content = Ok j →
  (∀ table, j ≠ JObj table) →
  load_data σ = (Raise AttributeError, set_CAR_PRICES j σ).
Proof.
  intros Hfile Hparse Hshape. apply (load_data_not_an_object σ content j); [done..|].
  destruct j; try reflexivity. by destruct (Hshape d).
Qed.

(** When [load_data] returns, the price table is a dict and the list of
    brands is the sorted list of its keys, provided that was so before. *)
Lemma load_data_returns σ σ1 :
  load_data σ = (Ok tt, σ1) →
  MODEL σ1 = MODEL σ ∧
  ((CAR_PRICES σ1 = CAR_PRICES σ ∧ AVAILABLE_BRANDS σ1 = AVAILABLE_BRANDS σ) ∨
   ∃ table, CAR_PRICES σ1 = JObj table ∧
            AVAILABLE_BRANDS σ1 = sorted (elements (dom table))).
Proof.
  destruct (fs σ !! PRICE_JSON_PATH) as [content|] eqn:Hfile.
  - destruct (json_loads content) as [j|e] eqn:Hparse.
    + destruct j as [| | | | | |table];
        try (rewrite (load_data_not_an_object σ content _ Hfile Hparse eq_refl);
             discriminate).
      rewrite (load_data_object σ content table Hfile Hparse).
      intros [= <-]. split; [done|]. right. by exists table.
    + unfold load_data, try_except, mbind, M_bind, open_read, lift, json_load.
      rewrite Hfile, Hparse.
      destruct e; simpl; try discriminate; intros [= <-]; (split; [done|]; by left).
  - rewrite (load_data_missing_file σ Hfile). intros [= <-]. split; [done|]. by left.
Qed.

(** When the loading of the model returns, the model is loaded, and the
    price table and the brands are as before. *)
Lemma load_model_returns YOLO σ σ1 :
  load_model YOLO σ = (Ok tt, σ1) →
  MODEL σ1 = true ∧ CAR_PRICES σ1 = CAR_PRICES σ ∧ AVAILABLE_BRANDS σ1 = AVAILABLE_BRANDS σ.
Proof.
  unfold load_model, try_except, mbind, M_bind, lift, write, print. simpl.
  destruct (YOLO MODEL_PATH) as [[]|e]; simpl.
  - by intros [= <-].
  - destruct (YOLO "yolov8n.pt") as [[]|e']; simpl; [|discriminate].
    by intros [= <-].
Qed.

(** If neither the configured weights nor the fallback load, the exception
    of the fallback leaves the module: there is no state in which the module
    is imported and the model is missing. *)
Theorem load_model_both_fail YOLO σ e1 e2 :
  YOLO MODEL_PATH = Raise e1 →
  YOLO "yolov8n.pt" = Raise e2 →
  (load_model YOLO σ).1 = Raise e2 ∧ MODEL (load_model YOLO σ).2 = MODEL σ.
Proof.
  intros Hfirst Hfallback.
  unfold load_model, try_except, mbind, M_bind, lift, write, print. simpl.
  by rewrite Hfirst, Hfallback.
Qed.

(** Once the module has been imported (its start-up code has returned), the
    model is loaded, the price table is a dict, and the list of available
    brands is sorted and holds exactly the keys of the table: also when the
    price file was missing or no JSON, and whichever weights loaded. *)
Theorem module_init_invariant YOLO files σ :
  module_init YOLO (initial_world files) = (Ok tt, σ) →
  MODEL σ = true ∧
  ∃ table,
    CAR_PRICES σ = JObj table ∧
    StronglySorted String.le (AVAILABLE_BRANDS σ) ∧
    ∀ brand, brand ∈ AVAILABLE_BRANDS σ ↔ is_Some (table !! brand).
Proof.
  unfold module_init, mbind at 1, M_bind at 1.
  destruct (load_data (initial_world files)) as [[[]|e] σ1] eqn:Hload; [|discriminate].
  intros Hmodel.
  apply load_data_returns in Hload as [_ Hglobals].
  apply load_model_returns in Hmodel as (Hloaded & -> & ->).
  split; [done|].
  destruct Hglobals as [[-> ->]|(table & -> & ->)].
  - exists ∅. simpl. split; [done|]. split; [constructor|].
    intros brand. rewrite elem_of_nil, lookup_empty. split; [done|]. by intros [? ?].
  - exists table. split; [done|]. unfold sorted. split.
    + apply StronglySorted_merge_sort; apply _.
    + intros brand. rewrite merge_sort_Permutation, elem_of_elements. apply elem_of_dom.
Qed.

End Startup.

(** A price file that is cut short. *)
Lemma load_data_soft_failure_witness :
  ∃ line σ1,
    @load_data (sample_external (λ _, Ok []))
      (initial_world {[ PRICE_JSON_PATH := "{ 'Audi': " ]}) = (Ok tt, σ1) ∧
    line ∈ [price_file_not_found; price_file_malformed] ∧
    σ1 = set_stdout [line] (initial_world {[ PRICE_JSON_PATH := "{ 'Audi': " ]}) ∧
    CAR_PRICES σ1 = JObj ∅ ∧
    ∀ σ2 car_brand car_model class_counts,
      CAR_PRICES σ2 = CAR_PRICES σ1 →
      (calculate_prices car_brand car_model class_counts σ2).1 = Ok [].
Proof.
  apply (@load_data_soft_failure (sample_external (λ _, Ok []))
           (initial_world {[ PRICE_JSON_PATH := "{ 'Audi': " ]})).
  - reflexivity.
  - right. exists "{ 'Audi': ". split; reflexivity.
Defined.

Lemma load_data_wrong_shape_witness :
  @load_data
    {| json_loads content := Ok (JArr []);
       secure_filename name := name;
       str_of_exn e := "";
       detect image := Ok [];
       write_fault path content := None |}
    (initial_world {[ PRICE_JSON_PATH := "[]" ]})
  = (Raise AttributeError,
     set_CAR_PRICES (JArr []) (initial_world {[ PRICE_JSON_PATH := "[]" ]})).
Proof.
  apply (@load_data_wrong_shape
           {| json_loads content := Ok (JArr []);
              secure_filename name := name;
              str_of_exn e := "";
              detect image := Ok [];
              write_fault path content := None |}
           (initial_world {[ PRICE_JSON_PATH := "[]" ]}) "[]" (JArr [])).
  - reflexivity.
  - reflexivity.
  - discriminate.
Defined.

Lemma load_model_both_fail_witness :
  (@load_model (sample_external (λ _, Ok [])) (λ _, Raise FileNotFoundError)
     (initial_world ∅)).1 = Raise FileNotFoundError ∧
  MODEL (@load_model (sample_external (λ _, Ok [])) (λ _, Raise FileNotFoundError)
           (initial_world ∅)).2 = false.
Proof.
  apply (@load_model_both_fail (sample_external (λ _, Ok [])) (λ _, Raise FileNotFoundError)
           (initial_world ∅) FileNotFoundError FileNotFoundError); reflexivity.
Defined.

Lemma module_init_invariant_witness :
  let σ := (@module_init (sample_external (λ _, Ok [])) sample_YOLO
              (initial_world {[ PRICE_JSON_PATH := "sample price file" ]})).2 in
  MODEL σ = true ∧
  ∃ table,
    CAR_PRICES σ = JObj table ∧
    StronglySorted String.le (AVAILABLE_BRANDS σ) ∧
    ∀ brand, brand ∈ AVAILABLE_BRANDS σ ↔ is_Some (table !! brand).
Proof.
  apply (@module_init_invariant (sample_external (λ _, Ok [])) sample_YOLO
           {[ PRICE_JSON_PATH := "sample price file" ]}).
  reflexivity.
Defined.

(** ** What a request can change *)

Section Frames.

Context `{External}.

Variable paths : list string.

Lemma frame_refl σ : frame paths σ σ.
Proof. by repeat split. Qed.

Lemma frame_trans σ1 σ2 σ3 : frame paths σ1 σ2 → frame paths σ2 σ3 → frame paths σ1 σ3.
Proof.
  intros (Hp1 & Hb1 & Hm1 & Hf1) (Hp2 & Hb2 & Hm2 & Hf2).
  repeat split; [congruence..|]. intros p Hp. rewrite Hf2, Hf1; done.
Qed.

(** [framed m]: every run of [m] stays within the frame. *)
Definition framed {A} (m : M A) : Prop := ∀ σ, frame paths σ (m σ).2.

Lemma framed_ret {A} (a : A) : framed (mret a).
Proof. intros σ. apply frame_refl. Qed.

Lemma framed_lift {A} (r : result A) : framed (lift r).
Proof. intros σ. apply frame_refl. Qed.

Lemma framed_read {A} (field : world → A) : framed (read field).
Proof. intros σ. apply frame_refl. Qed.

Lemma framed_bind {A B} (m : M A) (f : A → M B) :
  framed m → (∀ a, framed (f a)) → framed (m ≫= f).
Proof.
  intros Hm Hf σ. specialize (Hm σ). unfold mbind, M_bind.
  destruct (m σ) as [[a|e] σ1]; simpl in *; [|done].
  eapply frame_trans; [done | apply Hf].
Qed.

Lemma framed_lift_bind {A B} (r : result A) (f : A → M B) :
  (∀ a, r = Ok a → framed (f a)) → framed (lift r ≫= f).
Proof.
  intros Hf σ. unfold mbind, M_bind, lift.
  destruct r as [a|e]; simpl; [by apply Hf | apply frame_refl].
Qed.

Lemma framed_try_except {A} (body : M A) (handler : exn → option (M A)) :
  framed body → (∀ e h, handler e = Some h → framed h) → framed (try_except body handler).
Proof.
  intros Hbody Hhandler σ. specialize (Hbody σ). unfold try_except.
  destruct (body σ) as [[a|e] σ1]; simpl in *; [done|].
  destruct (handler e) as [h|] eqn:Hh; [|done].
  eapply frame_trans; [done | by eapply Hhandler].
Qed.

Lemma framed_only_prints {A} (m : M A) : only_prints m → framed m.
Proof. intros Hm σ. destruct (Hm σ) as [out ->]. by repeat split. Qed.

Lemma framed_print line : framed (print line).
Proof. apply framed_only_prints, only_prints_print. Qed.

Lemma framed_open_read path : framed (open_read path).
Proof. intros σ. unfold open_read. destruct (fs σ !! path); apply frame_refl. Qed.

Lemma framed_alloc c : framed (alloc c).
Proof. intros σ. by repeat split. Qed.

Lemma framed_write_file path content : path ∈ paths → framed (write_file path content).
Proof.
  intros Hpath σ. unfold write_file.
  destruct (write_fault path content) as [[e [written|]]|];
    repeat split; intros p Hp; simpl; apply lookup_insert_ne; by intros ->.
Qed.

Lemma framed_file_save file path : path ∈ paths → framed (file_save file path).
Proof. apply framed_write_file. Qed.

Lemma framed_result_save r path : path ∈ paths → framed (result_save r path).
Proof. apply framed_write_file. Qed.

Lemma framed_copyfile src dst : dst ∈ paths → framed (copyfile src dst).
Proof.
  intros Hpath σ. unfold copyfile.
  destruct (fs σ !! src); [|apply frame_refl].
  destruct (String.eqb src dst); [apply frame_refl|].
  by apply framed_write_file.
Qed.

End Frames.

Create HintDb frames.
Hint Resolve framed_ret framed_lift framed_read framed_print framed_open_read
  framed_alloc : frames.

Section HandlerFrames.

Context `{External}.

Lemma framed_analysis file car_brand car_model original detected :
  framed [os_path_join UPLOAD_FOLDER original; os_path_join UPLOAD_FOLDER detected]
    (analysis file car_brand car_model original detected).
Proof.
  unfold analysis.
  assert (∀ page : response,
            framed [os_path_join UPLOAD_FOLDER original; os_path_join UPLOAD_FOLDER detected]
              (copyfile (os_path_join UPLOAD_FOLDER original)
                 (os_path_join UPLOAD_FOLDER detected);; mret page)) as Hcopy.
  { intros page. apply framed_bind; [apply framed_copyfile; set_solver|].
    intros. apply framed_ret. }
  apply framed_bind; [apply framed_file_save; set_solver|]. intros _.
  apply framed_bind.
  { unfold MODEL_call. apply framed_bind; auto with frames. }
  intros results. destruct (head results) as [result|]; [|apply Hcopy].
  destruct (boxes result); [apply Hcopy|].
  apply framed_bind; [auto with frames|]. intros class_counts.
  apply framed_bind; [apply framed_result_save; set_solver|]. intros _.
  apply framed_bind; [apply framed_only_prints, only_prints_calculate_prices|].
  intros. apply framed_ret.
Qed.

Lemma framed_predict_damage req unique_id :
  framed (upload_paths req unique_id) (predict_damage req unique_id).
Proof.
  unfold predict_damage.
  apply framed_bind; [auto with frames|]. intros brands.
  apply framed_bind; [auto with frames|]. intros prices.
  destruct (method req); [auto with frames|].
  apply framed_bind; [auto with frames|]. intros model.
  destruct (negb model); [auto with frames|].
  apply framed_lift_bind. intros file Hfile. unfold upload_paths. rewrite Hfile.
  destruct (negb _); [auto with frames|].
  destruct file as [file|]; [|auto with frames].
  destruct (form_car_brand req) as [car_brand|]; [|auto with frames].
  destruct (form_car_model req) as [car_model|]; [|auto with frames].
  destruct (String.eqb (filename file) ""); [auto with frames|].
  destruct (negb _); [auto with frames|].
  apply framed_try_except; [apply framed_analysis|].
  intros e h [= <-]. apply framed_bind; [auto with frames|]. intros. apply framed_ret.
Qed.

(** No request changes the price table, the list of brands or the model:
    after start-up the three globals are only read. *)
Theorem predict_damage_keeps_globals req unique_id : keeps_globals (predict_damage req unique_id).
Proof.
  intros σ. destruct (framed_predict_damage req unique_id σ) as (Hp & Hb & Hm & _).
  by repeat split.
Qed.

(** A request writes no file but its own two images: every other path,
    and every path at all when the request carries no upload, holds after the
    request what it held before. *)
Theorem predict_damage_writes_only req unique_id :
  writes_only (upload_paths req unique_id) (predict_damage req unique_id).
Proof.
  intros σ p Hp. destruct (framed_predict_damage req unique_id σ) as (_ & _ & _ & Hfs).
  by apply Hfs.
Qed.

End HandlerFrames.

(** ** What a request is answered *)

Section HandlerAnswers.

Context `{External}.

(** The [try] block returns nothing but an estimate page. *)
Lemma analysis_returns_estimate file car_brand car_model original detected σ page σ' :
  analysis file car_brand car_model original detected σ = (Ok page, σ') →
  ∃ context, page = RenderEstimate context.
Proof.
  destruct (write_fault (os_path_join UPLOAD_FOLDER original) (stream file))
    as [[e written]|] eqn:Hdisk;
    [rewrite (analysis_save_raises _ _ _ _ _ e written σ Hdisk); discriminate|].
  rewrite analysis_saves_first by done. cbv zeta.
  destruct (detect (stream file)) as [results|e]; [|discriminate].
  assert (∀ context σ0,
            (copyfile (os_path_join UPLOAD_FOLDER original)
               (os_path_join UPLOAD_FOLDER detected);;
             mret (M := M) (RenderEstimate context)) σ0 = (Ok page, σ') →
            ∃ context', page = RenderEstimate context') as Hcopy.
  { intros context σ0. unfold mbind, M_bind.
    destruct (copyfile _ _ σ0) as [[[]|e] σ2]; [|discriminate].
    intros [= <- _]. by eexists. }
  destruct (head results) as [result|]; [|apply Hcopy].
  destruct (boxes result); [apply Hcopy|].
  unfold mbind, M_bind, alloc, result_save. simpl.
  destruct (write_file _ _ _) as [[[]|e] σ1]; [|discriminate].
  destruct (calculate_prices _ _ _ _) as [[part_prices|e] σ2]; [|discriminate].
  intros [= <- _]. by eexists.
Qed.

(** The handler answers every request whose body the framework does not
    refuse: whatever the request, the state, the disk and the detector do,
    no exception leaves [predict_damage], and the answer is a rendered page
    with status 200, never a redirect.  When the framework refuses the body
    (it is longer than [MAX_CONTENT_LENGTH], for one), the exception leaves
    the handler, for [request.files] is read outside the [try] block; the
    state is untouched. *)
Theorem predict_damage_always_answers req unique_id σ :
  match body_refusal σ req with
  | Some e => predict_damage req unique_id σ = (Raise e, σ)
  | None =>
      ∃ page σ', predict_damage req unique_id σ = (Ok page, σ') ∧ status_code page = 200
  end.
Proof.
  unfold body_refusal.
  destruct (method req) eqn:Hmethod.
  { unfold predict_damage, mbind, M_bind, read. simpl. rewrite Hmethod. by eexists _, _. }
  destruct (MODEL σ) eqn:Hmodel; cycle 1.
  { unfold predict_damage, mbind, M_bind, read. simpl. rewrite Hmethod, Hmodel.
    by eexists _, _. }
  destruct (files_image req) as [file|e] eqn:Hfile; cycle 1.
  { unfold predict_damage, mbind, M_bind, read, lift. simpl.
    by rewrite Hmethod, Hmodel, Hfile. }
  unfold predict_damage, mbind at 1 2, M_bind at 1 2, read. simpl. rewrite Hmethod.
  unfold mbind at 1, M_bind at 1. simpl. rewrite Hmodel. simpl.
  unfold mbind at 1, M_bind at 1, lift. rewrite Hfile. simpl.
  destruct (negb _); [by eexists _, _|].
  destruct file as [file|]; [|by eexists _, _].
  destruct (form_car_brand req) as [car_brand|]; [|by eexists _, _].
  destruct (form_car_model req) as [car_model|]; [|by eexists _, _].
  destruct (String.eqb (filename file) ""); [by eexists _, _|].
  destruct (negb _); [by eexists _, _|].
  unfold try_except.
  destruct (analysis _ _ _ _ _ σ) as [[page|e] σ'] eqn:Hanalysis.
  - apply analysis_returns_estimate in Hanalysis as [context ->]. by eexists _, _.
  - unfold mbind, M_bind, print, write. simpl. by eexists _, _.
Qed.

(** Validation decides before anything is done: unless the framework
    refuses the body, in which case its exception leaves the handler, either
    the request is accepted or the upload form comes back; in both cases
    that are not acceptance the state is untouched. *)
Theorem predict_damage_validates_first req unique_id σ :
  match body_refusal σ req with
  | Some e => predict_damage req unique_id σ = (Raise e, σ)
  | None =>
      (∃ file car_brand car_model, accepted σ req file car_brand car_model) ∨
      (∃ message,
         predict_damage req unique_id σ
         = (Ok (RenderPredict {| brands := AVAILABLE_BRANDS σ;
                                 prices := CAR_PRICES σ;
                                 error := message |}), σ))
  end.
Proof.
  unfold body_refusal.
  destruct (method req) eqn:Hmethod.
  { unfold predict_damage, mbind, M_bind, read. simpl. rewrite Hmethod. right. by eexists. }
  destruct (MODEL σ) eqn:Hmodel; cycle 1.
  { unfold predict_damage, mbind, M_bind, read. simpl. rewrite Hmethod, Hmodel.
    right. by eexists. }
  destruct (files_image req) as [file|e] eqn:Hfile; cycle 1.
  { unfold predict_damage, mbind, M_bind, read, lift. simpl.
    by rewrite Hmethod, Hmodel, Hfile. }
  unfold predict_damage, mbind at 1 2, M_bind at 1 2, read. simpl. rewrite Hmethod.
  unfold mbind at 1, M_bind at 1. simpl. rewrite Hmodel. simpl.
  unfold mbind at 1, M_bind at 1, lift. rewrite Hfile. simpl.
  destruct file as [file|]; simpl; [|right; by eexists].
  destruct (String.eqb (filename file) "") eqn:Hname; simpl; [right; by eexists|].
  destruct (form_car_brand req) as [car_brand|] eqn:Hbrand; simpl; [|right; by eexists].
  destruct (String.eqb car_brand "") eqn:Hb; simpl; [right; by eexists|].
  destruct (form_car_model req) as [car_model|] eqn:Hcar; simpl; [|right; by eexists].
  destruct (String.eqb car_model "") eqn:Hm; simpl; [right; by eexists|].
  destruct (allowed_file (secure_filename (filename file))) eqn:Hext; simpl;
    [|right; by eexists].
  left. exists file, car_brand, car_model.
  apply String.eqb_neq in Hname, Hb, Hm. by repeat split.
Qed.

End HandlerAnswers.

(** A body over the limit: the exception leaves the handler, and nothing is
    stored. *)
Lemma predict_damage_always_answers_witness :
  @predict_damage (sample_external (λ _, Ok [])) oversized_request "00c0ffee" (sample_world [])
  = (Raise RequestEntityTooLarge, sample_world []).
Proof.
  exact (@predict_damage_always_answers (sample_external (λ _, Ok []))
           oversized_request "00c0ffee" (sample_world [])).
Defined.

(** A request without a brand: it is accepted or the form comes back.  A
    body over the limit: neither, the exception leaves the handler. *)
Lemma predict_damage_validates_first_witness :
  let req := {| method := POST;
                content_length := 2048;
                parsed_image := Ok (Some (sample_upload "car.jpg"));
                form_car_brand := None;
                form_car_model := Some "A4" |} in
  ((∃ file car_brand car_model,
      @accepted (sample_external (λ _, Ok [])) (sample_world []) req file car_brand car_model) ∨
   (∃ message,
      @predict_damage (sample_external (λ _, Ok [])) req "00c0ffee" (sample_world [])
      = (Ok (RenderPredict {| brands := ["Audi"];
                              prices := JObj sample_table;
                              error := message |}), sample_world []))) ∧
  @predict_damage (sample_external (λ _, Ok [])) oversized_request "0badcafe" (sample_world [])
  = (Raise RequestEntityTooLarge, sample_world []).
Proof.
  intros req. split.
  - exact (@predict_damage_validates_first (sample_external (λ _, Ok [])) req "00c0ffee"
             (sample_world [])).
  - exact (@predict_damage_validates_first (sample_external (λ _, Ok [])) oversized_request
             "0badcafe" (sample_world [])).
Defined.

Section HandlerDetections.

Context `{External}.

Section Detections.

Variables (σ : world) (req : request) (unique_id : string).
Variables (file : FileStorage) (car_brand car_model : string).
Hypothesis Haccepted : accepted σ req file car_brand car_model.

Variables (result : Results) (others : list Results).
Hypothesis Hdetect : detect (stream file) = Ok (result :: others).
Hypothesis Hboxes : boxes result ≠ [].

Let original := original_name unique_id (secure_filename (filename file)).
Let detected := detected_name unique_id (secure_filename (filename file)).
Let class_counts := fresh (dom (heap σ)).

(** The operating system lets the upload and the annotated image be
    written. *)
Hypothesis Hsaved :
  write_fault (os_path_join UPLOAD_FOLDER original) (stream file) = None.
Hypothesis Hannotated :
  write_fault (os_path_join UPLOAD_FOLDER detected) (plot result) = None.

(** The state in which the prices are calculated: the upload and the
    annotated image are stored, and the class counts are a new object. *)
Let priced_in : world :=
  World (CAR_PRICES σ) (AVAILABLE_BRANDS σ) (MODEL σ) (stdout σ)
    (<[os_path_join UPLOAD_FOLDER detected := plot result]>
       (<[os_path_join UPLOAD_FOLDER original := stream file]> (fs σ)))
    (<[class_counts := Counter (boxes result)]> (heap σ)).

Lemma analysis_with_detections :
  analysis file car_brand car_model original detected σ
  = (part_prices ← calculate_prices car_brand car_model class_counts;
     mret (RenderEstimate {|
             original_image := url_for_static ("uploads/" +:+ original);
             detected_image := url_for_static ("uploads/" +:+ detected);
             part_prices := part_prices;
             car_info := (car_brand, car_model) |})) priced_in.
Proof.
  rewrite analysis_saves_first by done. cbv zeta. rewrite Hdetect. simpl.
  destruct (boxes result) as [|class_id class_ids]; [done|].
  unfold mbind at 1 2, M_bind at 1 2, alloc, result_save.
  rewrite write_file_returns by done. reflexivity.
Qed.

(** With detections and both images written, the estimate page carries the
    breakdown that
    [calculate_prices] returns for the counted classes of the first result,
    only the first result is used, the URL of the original image is served
    the upload and the URL of the detected image the annotated image. *)
Theorem predict_damage_with_prices part_prices σ' :
  calculate_prices car_brand car_model class_counts priced_in = (Ok part_prices, σ') →
  let page := {| original_image := url_for_static ("uploads/" +:+ original);
                 detected_image := url_for_static ("uploads/" +:+ detected);
                 part_prices := part_prices;
                 car_info := (car_brand, car_model) |} in
  predict_damage req unique_id σ = (Ok (RenderEstimate page), σ') ∧
  heap σ' !! class_counts = Some (Counter (boxes result)) ∧
  serve_static (original_image page) σ' = Some (stream file) ∧
  serve_static (detected_image page) σ' = Some (plot result).
Proof.
  intros Hprices page.
  pose proof (upload_paths_differ unique_id (secure_filename (filename file))) as Hdiff.
  fold original detected in Hdiff.
  destruct (only_prints_calculate_prices car_brand car_model class_counts priced_in)
    as [out Hout].
  rewrite Hprices in Hout. simpl in Hout.
  split; [|split; [|split]].
  - rewrite (predict_damage_accepted _ _ _ _ _ _ Haccepted).
    fold original detected. rewrite analysis_with_detections.
    unfold mbind, M_bind. by rewrite Hprices.
  - rewrite Hout. simpl. apply lookup_insert_eq.
  - subst page. cbn [original_image]. rewrite serve_static_upload, Hout. simpl.
    rewrite lookup_insert_ne by done. apply lookup_insert_eq.
  - subst page. cbn [detected_image]. rewrite serve_static_upload, Hout. simpl.
    apply lookup_insert_eq.
Qed.

(** When pricing raises (a class the lookup raises for, a price that cannot
    be multiplied) after both images were written, the request ends with the
    generic error form, and both images stay stored. *)
Theorem predict_damage_pricing_raises e σ' :
  calculate_prices car_brand car_model class_counts priced_in = (Raise e, σ') →
  let final :=
    set_stdout (stdout σ' ++ ["An error occurred during prediction: " +:+ str_of_exn e]) σ' in
  predict_damage req unique_id σ
  = (Ok (RenderPredict {|
           brands := AVAILABLE_BRANDS σ;
           prices := CAR_PRICES σ;
           error := Some ("An unexpected error occurred during analysis: "
                          +:+ str_of_exn e) |}),
     final) ∧
  fs final !! os_path_join UPLOAD_FOLDER original = Some (stream file) ∧
  fs final !! os_path_join UPLOAD_FOLDER detected = Some (plot result).
Proof.
  intros Hprices final.
  pose proof (upload_paths_differ unique_id (secure_filename (filename file))) as Hdiff.
  fold original detected in Hdiff.
  destruct (only_prints_calculate_prices car_brand car_model class_counts priced_in)
    as [out Hout].
  rewrite Hprices in Hout. simpl in Hout.
  split; [|split].
  - rewrite (predict_damage_accepted _ _ _ _ _ _ Haccepted).
    fold original detected. rewrite analysis_with_detections.
    unfold mbind, M_bind. by rewrite Hprices.
  - subst final. rewrite Hout. simpl.
    rewrite lookup_insert_ne by done. apply lookup_insert_eq.
  - subst final. rewrite Hout. simpl. apply lookup_insert_eq.
Qed.

End Detections.

End HandlerDetections.

(** *** On sample detections *)

(** Two boxes of class 0.0 and one of class 5.0 in the first result; a
    second result is ignored. *)
Lemma predict_damage_with_prices_witness :
  let boxes_found := [S754_zero false; S754_finite false 5 0; S754_zero false] in
  let E := sample_external
             (λ _, Ok [ {| boxes := boxes_found; plot := "annotated bytes" |};
                        {| boxes := [S754_finite false 1 0]; plot := "" |} ]) in
  let outcome := @predict_damage E (sample_request "car.jpg") "00c0ffee" (sample_world []) in
  let page := {| original_image := "/static/uploads/original_00c0ffee_car.jpg";
                 detected_image := "/static/uploads/detected_00c0ffee_car.jpg";
                 part_prices := [("Bonnet", Entry 2 (JInt 100) (JInt 200));
                                 ("Light", Entry 1 (JInt 50) (JInt 50))];
                 car_info := ("Audi", "A4") |} in
  outcome = (Ok (RenderEstimate page), outcome.2) ∧
  heap outcome.2 !! 1%nat = Some (Counter boxes_found) ∧
  serve_static (original_image page) outcome.2 = Some "image bytes" ∧
  serve_static (detected_image page) outcome.2 = Some "annotated bytes".
Proof.
  intros boxes_found E outcome page.
  apply (@predict_damage_with_prices E (sample_world []) (sample_request "car.jpg")
           "00c0ffee" (sample_upload "car.jpg") "Audi" "A4" (sample_request_accepted _ _)
           {| boxes := boxes_found; plot := "annotated bytes" |}
           [ {| boxes := [S754_finite false 1 0]; plot := "" |} ]).
  - reflexivity.
  - discriminate.
  - reflexivity.
  - reflexivity.
  - reflexivity.
Defined.

(** A box whose class is [nan]: the lookup raises [ValueError] in the
    pricing loop, and the request ends with the error form. *)
Lemma predict_damage_pricing_raises_witness :
  let E := sample_external (λ _, Ok [ {| boxes := [S754_nan]; plot := "annotated bytes" |} ]) in
  let outcome := @predict_damage E (sample_request "car.jpg") "00c0ffee" (sample_world []) in
  outcome
  = (Ok (RenderPredict {|
           brands := ["Audi"];
           prices := JObj sample_table;
           error := Some "An unexpected error occurred during analysis: failure" |}),
     outcome.2) ∧
  fs outcome.2 !! "static/uploads/original_00c0ffee_car.jpg" = Some "image bytes" ∧
  fs outcome.2 !! "static/uploads/detected_00c0ffee_car.jpg" = Some "annotated bytes".
Proof.
  intros E outcome.
  apply (@predict_damage_pricing_raises E (sample_world []) (sample_request "car.jpg")
           "00c0ffee" (sample_upload "car.jpg") "Audi" "A4" (sample_request_accepted _ _)
           {| boxes := [S754_nan]; plot := "annotated bytes" |} [] eq_refl
           ltac:(discriminate) eq_refl eq_refl ValueError).
  reflexivity.
Defined.

(** ** Stored names *)

Lemma app_inj_same_length (u1 u2 t1 t2 : string) :
  String.length u1 = String.length u2 → u1 +:+ t1 = u2 +:+ t2 → u1 = u2 ∧ t1 = t2.
Proof.
  revert u2. induction u1 as [|a u1 IH]; intros [|b u2]; simpl; try discriminate.
  - done.
  - intros [= Hlen] [= -> Happ]. destruct (IH _ Hlen Happ) as [-> ->]. done.
Qed.

(** Two requests never share a stored file: identifiers of the same length
    (every [os.urandom(8).hex()] has sixteen characters) that differ, or file
    names that differ, give four different paths. *)
Theorem upload_paths_do_not_collide id1 name1 id2 name2 :
  String.length id1 = String.length id2 →
  id1 ≠ id2 ∨ name1 ≠ name2 →
  let original1 := os_path_join UPLOAD_FOLDER (original_name id1 name1) in
  let detected1 := os_path_join UPLOAD_FOLDER (detected_name id1 name1) in
  let original2 := os_path_join UPLOAD_FOLDER (original_name id2 name2) in
  let detected2 := os_path_join UPLOAD_FOLDER (detected_name id2 name2) in
  original1 ≠ original2 ∧ detected1 ≠ detected2 ∧
  original1 ≠ detected2 ∧ detected1 ≠ original2.
Proof.
  intros Hlen Hdiff.
  assert (id1 +:+ "_" +:+ name1 ≠ id2 +:+ "_" +:+ name2) as Hne.
  { intros Heq. apply app_inj_same_length in Heq as [Hid Hname]; [|done].
    injection Hname as Hname. destruct Hdiff; done. }
  repeat split; cbv [os_path_join UPLOAD_FOLDER original_name detected_name String.append];
    try discriminate; intros [= Heq]; apply Hne; exact Heq.
Qed.

Lemma upload_paths_do_not_collide_witness :
  "static/uploads/original_00c0ffee_car.jpg" ≠ "static/uploads/original_0badcafe_car.jpg" ∧
  "static/uploads/detected_00c0ffee_car.jpg" ≠ "static/uploads/detected_0badcafe_car.jpg" ∧
  "static/uploads/original_00c0ffee_car.jpg" ≠ "static/uploads/detected_0badcafe_car.jpg" ∧
  "static/uploads/detected_00c0ffee_car.jpg" ≠ "static/uploads/original_0badcafe_car.jpg".
Proof.
  apply (upload_paths_do_not_collide "00c0ffee" "car.jpg" "0badcafe" "car.jpg").
  - reflexivity.
  - left. discriminate.
Defined.

(** ** Allowed file names *)

Lemma str_app_cons a (s t : string) : String a s +:+ t = String a (s +:+ t).
Proof. reflexivity. Qed.

Lemma str_app_nil_r (s : string) : s +:+ "" = s.
Proof. induction s as [|a s IH]; [done|]. by rewrite str_app_cons, IH. Qed.

Lemma str_app_assoc (s t u : string) : (s +:+ t) +:+ u = s +:+ (t +:+ u).
Proof. induction s as [|a s IH]; [done|]. by rewrite !str_app_cons, IH. Qed.

Lemma str_rev_app_spec (s t : string) : String.rev_app s t = String.rev s +:+ t.
Proof.
  unfold String.rev. revert t. induction s as [|a s IH]; intros t; simpl; [done|].
  rewrite (IH (String a t)), (IH (String a "")). by rewrite str_app_assoc.
Qed.

Lemma str_rev_cons a (s : string) : String.rev (String a s) = String.rev s +:+ String a "".
Proof. unfold String.rev at 1. simpl. apply str_rev_app_spec. Qed.

Lemma str_rev_app (s t : string) : String.rev (s +:+ t) = String.rev t +:+ String.rev s.
Proof.
  induction s as [|a s IH].
  - by rewrite str_app_nil_r.
  - by rewrite str_app_cons, !str_rev_cons, IH, str_app_assoc.
Qed.

Lemma str_rev_involutive (s : string) : String.rev (String.rev s) = s.
Proof.
  induction s as [|a s IH]; [done|].
  by rewrite str_rev_cons, str_rev_app, IH.
Qed.

Lemma str_prefix_spec (p s : string) : String.prefix p s = true ↔ ∃ t, s = p +:+ t.
Proof.
  revert s. induction p as [|a p IH]; intros s.
  - split; [intros _; by exists s | by destruct s].
  - destruct s as [|b s]; simpl.
    + split; [done | by intros [t ?]].
    + destruct (Ascii.ascii_dec a b) as [->|Hne].
      * rewrite IH. split; intros [t Ht]; exists t.
        -- by rewrite str_app_cons, Ht.
        -- rewrite str_app_cons in Ht. by injection Ht.
      * split; [done|]. intros [t Ht]. rewrite str_app_cons in Ht. by injection Ht.
Qed.

(** [s.endswith(suffix)] holds exactly when [s] is some text followed by the
    suffix. *)
Lemma endswith_spec (s suffix : string) :
  endswith s suffix = true ↔ ∃ stem, s = stem +:+ suffix.
Proof.
  unfold endswith. rewrite str_prefix_spec. split.
  - intros [t Ht]. exists (String.rev t).
    by rewrite <- (str_rev_involutive s), Ht, str_rev_app, str_rev_involutive.
  - intros [stem ->]. exists (String.rev stem). apply str_rev_app.
Qed.

Lemma ascii_lower_idemp c : ascii_lower (ascii_lower c) = ascii_lower c.
Proof. by destruct c as [[] [] [] [] [] [] [] []]. Qed.

Lemma lower_idemp (s : string) : lower (lower s) = lower s.
Proof. induction s as [|a s IH]; simpl; [done|]. by rewrite ascii_lower_idemp, IH. Qed.

(** A file name is allowed exactly when, with its capital letters made
    small, it ends in [.png], [.jpg] or [.jpeg]; so the letter case of the
    name does not matter. *)
Theorem allowed_file_spec (name : string) :
  (allowed_file name = true ↔
   ∃ stem, lower name = stem +:+ ".png" ∨ lower name = stem +:+ ".jpg"
           ∨ lower name = stem +:+ ".jpeg") ∧
  allowed_file (lower name) = allowed_file name.
Proof.
  split.
  - unfold allowed_file. simpl. rewrite !orb_true_iff, !endswith_spec.
    split.
    + intros [[stem ?]|[[stem ?]|[[stem ?]|?]]]; [exists stem; tauto..|done].
    + intros [stem [?|[?|?]]]; [left|right; left|right; right; left]; by exists stem.
  - unfold allowed_file. by rewrite lower_idemp.
Qed.
